(** * Offer lifecycle and awarding engine of aipick-game-be

    Shallow embedding of
    - [src/src/portfolio/services/portfolio.service.ts]  (PortfolioServiceImpl)
    - [src/src/portfolio/entities/portfolio-offer.entity.ts] (second half:
      PortfolioOfferServiceImpl)
    - [src/src/user/schemas/user.schema.ts] (second half:
      MongoPortfolioRepository).

    The Mongo collections are lists in insertion order; every store access
    is recorded in an event log, writes made inside a transaction are
    buffered and committed as one [EvTx] event.  The services run in a
    state and exception monad [M].  Numbers ([balance], percentages,
    points) are modelled as integers. *)

From Stdlib Require Import ZArith List String Bool Lia.
From stdpp Require Import base gmap list strings.

Local Open Scope Z_scope.

(** ** Data model *)

Inductive OfferStatus := WaitingForPricing | WaitingForCompletion | Completed.

#[global] Instance OfferStatus_eq_dec : EqDecision OfferStatus.
Proof. solve_decision. Defined.

Record TokenOffer := mkTokenOffer { firstToken : string; secondToken : string }.

(** The offer document; [date] is a display field derived from [day] and
    is not modelled. *)
Record PortfolioOffer := mkOffer {
  offer_id : nat;
  day : Z;
  tokenOffers : list TokenOffer;
  offerStatus : OfferStatus;
  pricingChanges : gmap string Z
}.

Record Portfolio := mkPortfolio {
  pf_id : nat;
  pf_user : nat;
  pf_offer : nat;
  selectedTokens : list string;
  isAwarded : bool;
  earnedPoints : option Z
}.

Record User := mkUser { user_id : nat; balance : Z }.

Record Pricing := mkPricing { startDayPrice : Z; endDayPrice : Z }.

(** Store writes and the event log. *)
Inductive Write :=
| WOfferCreateMany (days : list Z)
| WOfferUpdate (id : nat) (status : OfferStatus) (pc : option (gmap string Z))
| WPortfolioCreate (id user offer : nat) (toks : list string)
| WPortfolioUpdate (id : nat) (awarded : bool) (points : Z)
| WUserAddPoints (user : nat) (points : Z).

Inductive Event :=
| EvQuery (q : string)
| EvWrite (w : Write)
| EvTx (ws : list Write).

Record DB := mkDB {
  db_offers : list PortfolioOffer;
  db_portfolios : list Portfolio;
  db_users : list User;
  db_log : list Event;
  db_tx : option (list Write)
}.

Definition set_offers (os : list PortfolioOffer) (d : DB) : DB :=
  mkDB os (db_portfolios d) (db_users d) (db_log d) (db_tx d).
Definition set_portfolios (ps : list Portfolio) (d : DB) : DB :=
  mkDB (db_offers d) ps (db_users d) (db_log d) (db_tx d).
Definition set_users (us : list User) (d : DB) : DB :=
  mkDB (db_offers d) (db_portfolios d) us (db_log d) (db_tx d).
Definition set_log (l : list Event) (d : DB) : DB :=
  mkDB (db_offers d) (db_portfolios d) (db_users d) l (db_tx d).
Definition set_tx (t : option (list Write)) (d : DB) : DB :=
  mkDB (db_offers d) (db_portfolios d) (db_users d) (db_log d) t.

(** Exceptions thrown by the services. *)
Inductive Exn :=
| BadRequestException (msg : string)
| Error (msg : string)
| TypeError.

(** ** The state and exception monad *)

Definition M (A : Type) : Type := DB -> (Exn + A) * DB.

Definition ret {A} (a : A) : M A := fun d => (inr a, d).

Definition bind {A B} (m : M A) (k : A -> M B) : M B := fun d =>
  match m d with
  | (inl e, d') => (inl e, d')
  | (inr a, d') => k a d'
  end.

Definition throw {A} (e : Exn) : M A := fun d => (inl e, d).

(** [try { m } catch (error) { h(error) }]: writes made by [m] before it
    threw stay in place. *)
Definition try_catch {A} (m : M A) (h : Exn -> M A) : M A := fun d =>
  match m d with
  | (inl e, d') => h e d'
  | (inr a, d') => (inr a, d')
  end.

Notation "'do' x <- m ; k" := (bind m (fun x => k))
  (at level 60, x name, m at next level, right associativity).

Fixpoint for_each {A} (xs : list A) (f : A -> M unit) : M unit :=
  match xs with
  | [] => ret tt
  | x :: xs' => do _ <- f x ; for_each xs' f
  end.

Definition log_query (q : string) (d : DB) : DB :=
  set_log (db_log d ++ [EvQuery q]) d.

Definition query {A} (q : string) (f : DB -> A) : M A := fun d =>
  (inr (f d), log_query q d).

(** A write goes to the open transaction, if any, else to the log. *)
Definition emit (w : Write) (d : DB) : DB :=
  match db_tx d with
  | Some ws => set_tx (Some (ws ++ [w])) d
  | None => set_log (db_log d ++ [EvWrite w]) d
  end.

(** Modelled from the spec: TransactionsManager.useTransaction (the
    Transaction Coordinator of spec section 6, [runInTransaction]).  The
    enclosed writes become visible together as one [EvTx] event; on any
    error inside [f] all of them are discarded. *)
Definition useTransaction {A} (f : M A) : M A := fun d =>
  match f (set_tx (Some []) d) with
  | (inr a, d') =>
      (inr a, set_tx (db_tx d)
                (set_log (db_log d' ++ [EvTx (default [] (db_tx d'))]) d'))
  | (inl e, _) => (inl e, d)
  end.

(** ** Offer store *)

Definition find_offer (id : nat) (d : DB) : option PortfolioOffer :=
  find (fun o => Nat.eqb (offer_id o) id) (db_offers d).

Definition set_offer_status (st : OfferStatus) (pc : option (gmap string Z))
    (o : PortfolioOffer) : PortfolioOffer :=
  mkOffer (offer_id o) (day o) (tokenOffers o) st (default (pricingChanges o) pc).

(** Modelled from the spec: PortfolioOfferRepository.findById (Offer
    Store [findById]). *)
Definition offer_findById (id : nat) : M (option PortfolioOffer) :=
  query "offers.findById" (find_offer id).

(** Modelled from the spec: PortfolioOfferRepository.findLatest (Offer
    Store [findLatestByDay]): an offer of maximum day. *)
Definition latest_step (acc : option PortfolioOffer) (o : PortfolioOffer)
    : option PortfolioOffer :=
  match acc with
  | None => Some o
  | Some a => if day a <? day o then Some o else Some a
  end.

Definition latest (os : list PortfolioOffer) : option PortfolioOffer :=
  fold_left latest_step os None.

Definition offer_findLatest : M (option PortfolioOffer) :=
  query "offers.findLatest" (fun d => latest (db_offers d)).

(** Modelled from the spec: PortfolioOfferRepository.findByOfferStatus
    (Offer Store [findByStatus(status, maxDay?)]). *)
Definition offer_findByOfferStatus (st : OfferStatus) (maxDay : option Z)
    : M (list PortfolioOffer) :=
  query "offers.findByOfferStatus" (fun d =>
    List.filter (fun o => bool_decide (offerStatus o = st) &&
                     match maxDay with Some m => day o <=? m | None => true end)
           (db_offers d)).

(** Modelled from the spec: PortfolioOfferRepository.find({fromDay, toDay});
    the spec has [listOffersForDays(days)], which passes
    [currentDay - days] and [currentDay + 1], return the days
    [[currentDay - days, currentDay]], so [toDay] is exclusive. *)
Definition offer_find (fromDay toDay : Z) : M (list PortfolioOffer) :=
  query "offers.find" (fun d =>
    List.filter (fun o => (fromDay <=? day o) && (day o <? toDay)) (db_offers d)).

(** Modelled from the spec: PortfolioOfferRepository.updateOneById (Offer
    Store [updateStatusAndPricing(id, status, pricingChanges?)]). *)
Definition offer_updateOneById (id : nat) (st : OfferStatus)
    (pc : option (gmap string Z)) : M unit := fun d =>
  (inr tt, set_offers (map (fun o => if Nat.eqb (offer_id o) id
                                     then set_offer_status st pc o else o)
                           (db_offers d))
                      (emit (WOfferUpdate id st pc) d)).

Record CreatePortfolioOfferEntityParams := mkCreateOffer {
  cp_day : Z;
  cp_tokenOffers : list TokenOffer
}.

Definition next_offer_id (d : DB) : nat :=
  S (list_max (map offer_id (db_offers d))).

Fixpoint new_offers (id : nat) (ps : list CreatePortfolioOfferEntityParams)
    : list PortfolioOffer :=
  match ps with
  | [] => []
  | p :: ps' =>
      mkOffer id (cp_day p) (cp_tokenOffers p) WaitingForPricing ∅
        :: new_offers (S id) ps'
  end.

(** Modelled from the spec: PortfolioOfferRepository.createMany (Offer
    Store [createMany]); every new offer starts in [WaitingForPricing]
    with no pricing changes. *)
Definition offer_createMany (ps : list CreatePortfolioOfferEntityParams)
    : M unit := fun d =>
  (inr tt, set_offers (db_offers d ++ new_offers (next_offer_id d) ps)
                      (emit (WOfferCreateMany (map cp_day ps)) d)).

(** ** Portfolio repository (MongoPortfolioRepository) *)

Record FindPortfolioEntitiesParams := mkFind {
  fp_userId : option nat;
  fp_offerIds : option (list nat);
  fp_isAwarded : option bool
}.

Definition find_portfolio (id : nat) (d : DB) : option Portfolio :=
  find (fun p => Nat.eqb (pf_id p) id) (db_portfolios d).

(** The Mongo filter built by [find]: an absent field does not filter; an
    empty [offerIds] array is present and matches no portfolio. *)
Definition portfolio_matches (params : FindPortfolioEntitiesParams)
    (p : Portfolio) : bool :=
  match fp_userId params with Some u => Nat.eqb (pf_user p) u | None => true end &&
  match fp_offerIds params with
  | Some ids => existsb (Nat.eqb (pf_offer p)) ids
  | None => true
  end &&
  match fp_isAwarded params with Some b => Bool.eqb (isAwarded p) b | None => true end.

Definition portfolio_find (params : FindPortfolioEntitiesParams) : M (list Portfolio) :=
  query "portfolios.find" (fun d => List.filter (portfolio_matches params) (db_portfolios d)).

Definition portfolio_existsByUserIdAndOfferId (userId offerId : nat) : M bool :=
  query "portfolios.exists" (fun d =>
    existsb (fun p => Nat.eqb (pf_user p) userId && Nat.eqb (pf_offer p) offerId)
            (db_portfolios d)).

Definition next_portfolio_id (d : DB) : nat :=
  S (list_max (map pf_id (db_portfolios d))).

Definition portfolio_create (user : nat) (toks : list string) (offer : nat)
    (awarded : bool) : M Portfolio := fun d =>
  let p := mkPortfolio (next_portfolio_id d) user offer toks awarded None in
  (inr p, set_portfolios (db_portfolios d ++ [p])
            (emit (WPortfolioCreate (pf_id p) user offer toks) d)).

Definition award (awarded : bool) (points : Z) (p : Portfolio) : Portfolio :=
  mkPortfolio (pf_id p) (pf_user p) (pf_offer p) (selectedTokens p) awarded (Some points).

(** [findOneAndUpdate({_id: id}, {isAwarded, earnedPoints})] in the
    current session. *)
Definition portfolio_updateOneById (id : nat) (awarded : bool) (points : Z) : M unit :=
  fun d =>
  (inr tt, set_portfolios (map (fun p => if Nat.eqb (pf_id p) id
                                         then award awarded points p else p)
                               (db_portfolios d))
                          (emit (WPortfolioUpdate id awarded points) d)).

(** ** User ledger *)

Definition find_user (id : nat) (d : DB) : option User :=
  find (fun u => Nat.eqb (user_id u) id) (db_users d).

(** Modelled from the spec: UserService.getById (User Ledger [getById]). *)
Definition user_getById (id : nat) : M (option User) :=
  query "users.getById" (find_user id).

(** Modelled from the spec: UserService.update(id, {addPoints}) (User
    Ledger [creditPoints(id, amount)]): an additive credit. *)
Definition user_update (id : nat) (addPoints : Z) : M unit := fun d =>
  (inr tt, set_users (map (fun u => if Nat.eqb (user_id u) id
                                    then mkUser (user_id u) (balance u + addPoints) else u)
                          (db_users d))
                     (emit (WUserAddPoints id addPoints) d)).

(** ** Environment of a run

    [currentDay] is [getCurrentDayInUtc()]; [getCoinPriceForDay] is the
    CoinsApi (absent = [None]); [calculatePercentageChange] is the helper
    of [@common/utils]; [sampleSize day n] is the draw that
    [sampleSize(tokens, n)] returns in the loop iteration for [day]. *)
Record Env := mkEnv {
  currentDay : Z;
  getCoinPriceForDay : string -> Z -> option Pricing;
  calculatePercentageChange : Z -> Z -> Z;
  sampleSize : Z -> nat -> list string
}.

(** ** PortfolioOfferServiceImpl *)

Definition MAX_DAYS_THRESHOLD : Z := 3.
Definition OFFERS_TO_GENERATE : Z := 7.
Definition MAX_TOKEN_OFFERS : nat := 6.

Definition listOffersForDays (env : Env) (days : Z) : M (list PortfolioOffer) :=
  let currentDay := currentDay env in
  offer_find (currentDay - days) (currentDay + 1).

Definition listOffersWaitingForCompletion : M (list PortfolioOffer) :=
  offer_findByOfferStatus WaitingForCompletion None.

Definition getByDay (d0 : Z) : M (option PortfolioOffer) :=
  query "offers.findByDay" (fun d => find (fun o => day o =? d0) (db_offers d)).

Definition markOfferCompleted (offerId : nat) : M unit :=
  offer_updateOneById offerId Completed None.

(** The days visited by [for (let day = lo; day <= hi; day++)]. *)
Definition days_incl (lo hi : Z) : list Z :=
  map (fun i => lo + Z.of_nat i) (seq 0 (Z.to_nat (hi - lo + 1))).

(** [new Array(MAX_TOKEN_OFFERS).fill(null).map((_, index) => ...)];
    a missing array element ([undefined]) is [""]. *)
Definition make_token_offers (availableTokens : list string) : list TokenOffer :=
  map (fun index => mkTokenOffer (nth (index * 2) availableTokens "")
                                 (nth (index * 2 + 1) availableTokens ""))
      (seq 0 MAX_TOKEN_OFFERS).

Definition generateOffers (env : Env) : M unit :=
  do lastOffer <- offer_findLatest ;
  let currentDay := currentDay env in
  let nextOfferDay := match lastOffer with
                      | Some o => day o + 1
                      | None => currentDay
                      end in
  if MAX_DAYS_THRESHOLD <? nextOfferDay - currentDay then ret tt
  else
    let offers :=
      map (fun day =>
             let availableTokens := sampleSize env day (MAX_TOKEN_OFFERS * 2) in
             mkCreateOffer day (make_token_offers availableTokens))
          (days_incl nextOfferDay (nextOfferDay + OFFERS_TO_GENERATE)) in
    offer_createMany offers.

(** One callback of [Promise.all([firstToken, secondToken].map(async
    (token) => ...))], acting on the local [pricingChanges] object and the
    [shouldSkipOffer] flag.  An absent pricing sets the flag and then
    reads [pricing.startDayPrice], which throws a [TypeError]. *)
Definition price_token (api : string -> Z -> option Pricing)
    (pct : Z -> Z -> Z) (offerDay : Z) (st : gmap string Z * bool)
    (token : string) : Exn + (gmap string Z * bool) :=
  let pricing := api token offerDay in
  let shouldSkipOffer := match pricing with None => true | Some _ => snd st end in
  match pricing with
  | None => inl TypeError
  | Some p =>
      inr (<[token := pct (startDayPrice p) (endDayPrice p)]> (fst st), shouldSkipOffer)
  end.

(** [await Promise.all(...)] over the two tokens of a pair: it rejects
    when a callback throws.  A rejection abandons the local state, so
    running the callbacks one after the other gives the same outcome. *)
Definition price_pair (api : string -> Z -> option Pricing) (pct : Z -> Z -> Z)
    (offerDay : Z) (st : gmap string Z * bool) (tokenOffer : TokenOffer)
    : Exn + (gmap string Z * bool) :=
  match price_token api pct offerDay st (firstToken tokenOffer) with
  | inl e => inl e
  | inr st1 => price_token api pct offerDay st1 (secondToken tokenOffer)
  end.

(** [for (const tokenOffer of offer.getTokenOffers()) { ...; if
    (shouldSkipOffer) break; }] *)
Fixpoint price_pairs (api : string -> Z -> option Pricing) (pct : Z -> Z -> Z)
    (offerDay : Z) (st : gmap string Z * bool) (tos : list TokenOffer)
    : Exn + (gmap string Z * bool) :=
  match tos with
  | [] => inr st
  | tokenOffer :: rest =>
      match price_pair api pct offerDay st tokenOffer with
      | inl e => inl e
      | inr st' => if snd st' then inr st' else price_pairs api pct offerDay st' rest
      end
  end.

(** The body of the offer loop, inside its [try]/[catch]
    ([Logger.error] only). *)
Definition sync_offer (env : Env) (offer : PortfolioOffer) : M unit :=
  try_catch
    (match price_pairs (getCoinPriceForDay env) (calculatePercentageChange env)
             (day offer) (∅, false) (tokenOffers offer) with
     | inl e => throw e
     | inr (pricingChanges, shouldSkipOffer) =>
         if shouldSkipOffer then ret tt
         else offer_updateOneById (offer_id offer) WaitingForCompletion (Some pricingChanges)
     end)
    (fun _ => ret tt).

Definition syncOffersPrices (env : Env) : M unit :=
  do offers <- offer_findByOfferStatus WaitingForPricing (Some (currentDay env)) ;
  match offers with
  | [] => ret tt
  | _ => for_each offers (sync_offer env)
  end.

Definition getById (id : nat) : M (option PortfolioOffer) := offer_findById id.

(** ** PortfolioServiceImpl *)

(** lodash [groupBy], keys are the offer ids. *)
Definition groupBy {A} (f : A -> nat) (xs : list A) : gmap nat (list A) :=
  fold_left (fun m x => <[f x := default [] (m !! f x) ++ [x]]> m) xs ∅.

(** [list(params)]. *)
Definition list_portfolios (params : FindPortfolioEntitiesParams) : M (list Portfolio) :=
  portfolio_find (mkFind (fp_userId params) (fp_offerIds params) None).

Definition listForUserAndOffers (userId : nat) (offerIds : list nat) : M (list Portfolio) :=
  match offerIds with
  | [] => throw (BadRequestException "At least one offer should be provided.")
  | _ => portfolio_find (mkFind (Some userId) (Some offerIds) None)
  end.

Record CreatePortfolioParams := mkCreatePortfolio {
  cpp_userId : nat;
  cpp_selectedTokens : list string;
  cpp_offerId : nat
}.

(** [selectedTokens.every((token, index) => ...)] *)
Fixpoint every_with_index (f : string -> nat -> bool) (xs : list string) (index : nat) : bool :=
  match xs with
  | [] => true
  | x :: xs' => f x index && every_with_index f xs' (S index)
  end.

(** After the length check [tokenOffers[index]] is always defined. *)
Definition validateSelectedTokens (selectedTokens : list string) (offer : PortfolioOffer)
    : M bool :=
  let tokenOffers := tokenOffers offer in
  if negb (Nat.eqb (List.length selectedTokens) (List.length tokenOffers))
  then throw (BadRequestException "Invalid number of selected tokens")
  else ret (every_with_index (fun token index =>
              match tokenOffers !! index with
              | Some t => String.eqb (firstToken t) token || String.eqb (secondToken t) token
              | None => false
              end) selectedTokens 0).

Definition create (env : Env) (params : CreatePortfolioParams) : M Portfolio :=
  do offer <- getById (cpp_offerId params) ;
  match offer with
  | None => throw (BadRequestException "Provided offer is not found")
  | Some offer =>
    do user <- user_getById (cpp_userId params) ;
    match user with
    | None => throw (BadRequestException "Provided user is not found")
    | Some _ =>
      if negb (day offer =? currentDay env + 1)
      then throw (BadRequestException "Provided offer is not available.")
      else
        do _ <- validateSelectedTokens (cpp_selectedTokens params) offer ;
        do portfolioForProvidedOfferExists <-
          portfolio_existsByUserIdAndOfferId (cpp_userId params) (cpp_offerId params) ;
        if portfolioForProvidedOfferExists
        then throw (BadRequestException "Portfolio for this day already submitted.")
        else portfolio_create (cpp_userId params) (cpp_selectedTokens params)
               (cpp_offerId params) false
    end
  end.

(** The [reduce] computing [earnedPoints]: it throws at the first
    selected token without a percentage change. *)
Fixpoint reduce_points (offerPriceChanges : gmap string Z) (toks : list string)
    (points : Z) : Exn + Z :=
  match toks with
  | [] => inr points
  | selectedToken :: rest =>
      match offerPriceChanges !! selectedToken with
      | None => inl (Error "Percentage change not found for token.")
      | Some percentage => reduce_points offerPriceChanges rest (points + percentage)
      end
  end.

Definition award_portfolio (offerPriceChanges : gmap string Z) (portfolio : Portfolio)
    : M unit :=
  match reduce_points offerPriceChanges (selectedTokens portfolio) 0 with
  | inl e => throw e
  | inr earnedPoints =>
      useTransaction (
        do _ <- portfolio_updateOneById (pf_id portfolio) true earnedPoints ;
        user_update (pf_user portfolio) earnedPoints)
  end.

(** The body of the offer loop with its [try]/[catch] ([Logger.error]). *)
Definition award_offer (groupedPortfolios : gmap nat (list Portfolio))
    (offer : PortfolioOffer) : M unit :=
  try_catch
    (let offerPriceChanges := pricingChanges offer in
     let portfolios := default [] (groupedPortfolios !! offer_id offer) in
     do _ <- for_each portfolios (award_portfolio offerPriceChanges) ;
     markOfferCompleted (offer_id offer))
    (fun _ => ret tt).

Definition awardPortfolios : M unit :=
  do offers <- listOffersWaitingForCompletion ;
  do portfolios <- portfolio_find (mkFind None (Some (map offer_id offers)) (Some false)) ;
  let groupedPortfolios := groupBy pf_offer portfolios in
  for_each offers (award_offer groupedPortfolios).

(** The tokens of the pairs, in order. *)
Definition pair_tokens (tos : list TokenOffer) : list string :=
  flat_map (fun t => [firstToken t; secondToken t]) tos.

(** ** Observations of one portfolio or one offer

    The frame lemmas compare what a run leaves of one record: its current
    value, the logged events that write it and the writes about it still
    buffered in an open transaction. *)

Definition write_mentions_pf (pid : nat) (w : Write) : bool :=
  match w with
  | WPortfolioCreate id _ _ _ | WPortfolioUpdate id _ _ => Nat.eqb id pid
  | _ => false
  end.

Definition write_mentions_offer (oid : nat) (w : Write) : bool :=
  match w with
  | WOfferUpdate id _ _ => Nat.eqb id oid
  | _ => false
  end.

Definition event_mentions (wm : Write -> bool) (e : Event) : bool :=
  match e with
  | EvQuery _ => false
  | EvWrite w => wm w
  | EvTx ws => existsb wm ws
  end.

Definition events_about (wm : Write -> bool) (l : list Event) : list Event :=
  List.filter (event_mentions wm) l.

Definition buffered_about (wm : Write -> bool) (d : DB) : list Write :=
  match db_tx d with Some ws => List.filter wm ws | None => [] end.

Definition obs_gen {R} (look : DB -> R) (wm : Write -> bool) (d : DB)
    : R * list Event * list Write :=
  (look d, events_about wm (db_log d), buffered_about wm d).

Definition obs_pf (pid : nat) : DB -> option Portfolio * list Event * list Write :=
  obs_gen (find_portfolio pid) (write_mentions_pf pid).

Definition obs_offer (oid : nat) : DB -> option PortfolioOffer * list Event * list Write :=
  obs_gen (find_offer oid) (write_mentions_offer oid).

(** A computation leaves the observation [obs] as it found it, also when
    it throws. *)
Definition stable {A X} (obs : DB -> X) (m : M A) : Prop :=
  forall d, obs (snd (m d)) = obs d.

(** The group of an offer in [awardPortfolios]: its non-awarded
    portfolios, in store order. *)
Definition award_group (d : DB) (oid : nat) : list Portfolio :=
  List.filter (fun q => Nat.eqb (pf_offer q) oid && negb (isAwarded q)) (db_portfolios d).

(** Every selected token of the portfolio has a percentage change. *)
Definition priced (pc : gmap string Z) (q : Portfolio) : bool :=
  forallb (fun t => match pc !! t with Some _ => true | None => false end) (selectedTokens q).

Definition sum_changes (pc : gmap string Z) (toks : list string) : Z :=
  fold_right Z.add 0 (map (fun t => default 0 (pc !! t)) toks).

(** The values [awardPortfolios] computes from its two queries: the
    offers waiting for completion, the groups of their non-awarded
    portfolios, and the state after both queries. *)
Definition waiting_offers (d : DB) : list PortfolioOffer :=
  List.filter (fun o => bool_decide (offerStatus o = WaitingForCompletion) && true) (db_offers d).

Definition awarding_groups (d : DB) : gmap nat (list Portfolio) :=
  groupBy pf_offer
    (List.filter (portfolio_matches (mkFind None (Some (map offer_id (waiting_offers d))) (Some false)))
                 (db_portfolios d)).

Definition after_award_queries (d : DB) : DB :=
  log_query "portfolios.find" (log_query "offers.findByOfferStatus" d).

(** The portfolio ids, in store order. *)
Definition pf_ids (d : DB) : list nat := map pf_id (db_portfolios d).

(** The offer ids, in store order. *)
Definition offer_ids (d : DB) : list nat := map offer_id (db_offers d).

(** ** The ledger of points

    [credit_total u d] sums the [WUserAddPoints u _] writes that are
    logged or buffered; [ledger u d] is user [u]'s balance minus that sum.
    A run that keeps [ledger u] changes the balance by exactly the credits
    it writes for [u]. *)
Fixpoint credits_in (u : nat) (ws : list Write) : Z :=
  match ws with
  | [] => 0
  | WUserAddPoints v x :: ws' => (if Nat.eqb v u then x else 0) + credits_in u ws'
  | _ :: ws' => credits_in u ws'
  end.

Definition event_credits (u : nat) (e : Event) : Z :=
  match e with
  | EvQuery _ => 0
  | EvWrite w => credits_in u [w]
  | EvTx ws => credits_in u ws
  end.

Definition credited (u : nat) (log : list Event) : Z :=
  fold_right (fun e acc => event_credits u e + acc) 0 log.

Definition credit_total (u : nat) (d : DB) : Z :=
  credited u (db_log d) + credits_in u (default [] (db_tx d)).

Definition ledger (u : nat) (d : DB) : option Z :=
  option_map (fun usr => balance usr - credit_total u d) (find_user u d).

(** ** Views used by the properties of the whole services *)

(** The (user, offer) key of each stored portfolio, the pair that
    [existsByUserIdAndOfferId] looks for. *)
Definition pf_keys (d : DB) : list (nat * nat) :=
  map (fun q => (pf_user q, pf_offer q)) (db_portfolios d).

(** The positional test of [validateSelectedTokens]: the token is one of
    the two tokens of the pair. *)
Definition in_pair (token : string) (t : TokenOffer) : Prop :=
  firstToken t = token \/ secondToken t = token.

(** The percentage change [syncOffersPrices] stores for [token] on an
    offer of [offerDay], when the CoinsApi has its pricing (0 otherwise). *)
Definition token_change (env : Env) (offerDay : Z) (token : string) : Z :=
  match getCoinPriceForDay env token offerDay with
  | Some p => calculatePercentageChange env (startDayPrice p) (endDayPrice p)
  | None => 0
  end.

(** The offers [syncOffersPrices] reads:
    [findByOfferStatus(WaitingForPricing, currentDay)]. *)
Definition sync_batch (env : Env) (d : DB) : list PortfolioOffer :=
  List.filter (fun o => bool_decide (offerStatus o = WaitingForPricing) &&
                        (day o <=? currentDay env)) (db_offers d).

(** [nextOfferDay] of [generateOffers]. *)
Definition next_offer_day (env : Env) (d : DB) : Z :=
  match latest (db_offers d) with Some o => day o + 1 | None => currentDay env end.

(** The [offers] array [generateOffers] passes to [createMany]. *)
Definition generated_params (env : Env) (nextOfferDay : Z)
    : list CreatePortfolioOfferEntityParams :=
  map (fun day =>
         let availableTokens := sampleSize env day (MAX_TOKEN_OFFERS * 2) in
         mkCreateOffer day (make_token_offers availableTokens))
      (days_incl nextOfferDay (nextOfferDay + OFFERS_TO_GENERATE)).

(** A portfolio record is left as it is, or awarded with some points. *)
Definition award_step (q q' : Portfolio) : Prop :=
  q' = q \/ exists s, q' = award true s q.

(** A computation that changes the portfolio store only by awarding
    records in place. *)
Definition only_awards {A} (m : M A) : Prop :=
  forall d, Forall2 award_step (db_portfolios d) (db_portfolios (snd (m d))).

(** ** Concrete inputs *)

Module Fixtures.

Local Open Scope string_scope.

Definition tokens12 : list string :=
  ["T1"; "T2"; "T3"; "T4"; "T5"; "T6"; "T7"; "T8"; "T9"; "T10"; "T11"; "T12"].

(** Day 100; the CoinsApi has no pricing for "X"; every draw is
    [tokens12]. *)
Definition env0 : Env :=
  mkEnv 100
    (fun t _ => if String.eqb t "X" then None else Some (mkPricing 100 105))
    (fun startDayPrice endDayPrice => endDayPrice - startDayPrice)
    (fun _ _ => tokens12).

(** Tomorrow's offer (day 101) with the single pair (A, B). *)
Definition offer_next : PortfolioOffer :=
  mkOffer 4 101 [mkTokenOffer "A" "B"] WaitingForPricing ∅.

Definition db_next : DB := mkDB [offer_next] [] [mkUser 7 1000] [] None.

(** A priced offer whose pricing changes only know "A"; portfolio 10
    selected "B", which is not in the map, portfolio 11 selected "A". *)
Definition pc_A : gmap string Z := <["A" := 5]> ∅.

Definition offer_priced : PortfolioOffer :=
  mkOffer 1 99 [mkTokenOffer "A" "B"] WaitingForCompletion pc_A.

Definition db_award : DB :=
  mkDB [offer_priced]
       [mkPortfolio 10 7 1 ["B"] false None; mkPortfolio 11 7 1 ["A"] false None]
       [mkUser 7 1000] [] None.

(** The example of the spec: pricing changes {A: +5, B: -3} on the pair
    (A, B); portfolio 20 of user 7 selected "A", portfolio 21 of user 8
    selected "B". *)
Definition pc_AB : gmap string Z := <["A" := 5]> (<["B" := -3]> ∅).

Definition offer_AB : PortfolioOffer :=
  mkOffer 2 99 [mkTokenOffer "A" "B"] WaitingForCompletion pc_AB.

Definition pf_20 : Portfolio := mkPortfolio 20 7 2 ["A"] false None.

Definition pf_21 : Portfolio := mkPortfolio 21 8 2 ["B"] false None.

Definition db_award_ok : DB :=
  mkDB [offer_AB] [pf_20; pf_21] [mkUser 7 1000; mkUser 8 1000] [] None.

(** A waiting offer nobody took a portfolio for. *)
Definition db_no_portfolios : DB := mkDB [offer_priced] [] [mkUser 7 1000] [] None.

(** Two offers of day 100 waiting for pricing: offer 5 pairs "A" with
    "X", which the CoinsApi does not know, offer 6 pairs "A" with "B". *)
Definition offer_X : PortfolioOffer :=
  mkOffer 5 100 [mkTokenOffer "A" "X"] WaitingForPricing ∅.

Definition offer_ok : PortfolioOffer :=
  mkOffer 6 100 [mkTokenOffer "A" "B"] WaitingForPricing ∅.

Definition db_sync : DB := mkDB [offer_X; offer_ok] [] [] [] None.

Definition db_empty : DB := mkDB [] [] [] [] None.

(** Offers are already generated up to day 104 while today is day 100. *)
Definition offer_ahead : PortfolioOffer := mkOffer 1 104 [] WaitingForPricing ∅.

Definition db_ahead : DB := mkDB [offer_ahead] [] [] [] None.

(** Portfolio commitment for tomorrow's offer 4 by user 7, and one for an
    offer that does not exist. *)
Definition cp7 : CreatePortfolioParams := mkCreatePortfolio 7 ["A"] 4.

Definition cp_missing : CreatePortfolioParams := mkCreatePortfolio 7 ["A"] 9.

Definition pf_new : Portfolio := mkPortfolio 1 7 4 ["A"] false None.

Definition db_created : DB := snd (create env0 cp7 db_next).

(** Offer 6 of day 100 waits for pricing; user 7 selected "A" on it. *)
Definition pf_30 : Portfolio := mkPortfolio 30 7 6 ["A"] false None.

Definition db_sync_award : DB := mkDB [offer_ok] [pf_30] [mkUser 7 1000] [] None.

End Fixtures.

(** * Theorems *)

(** ** Offer store lemmas *)

Lemma latest_spec (os : list PortfolioOffer) (acc : option PortfolioOffer) :
  match fold_left latest_step os acc with
  | Some a => (acc = Some a \/ In a os) /\ Forall (fun o => day o <= day a) os /\
              (forall b, acc = Some b -> day b <= day a)
  | None => acc = None /\ os = []
  end.
Proof.
  revert acc; induction os as [|x os IH]; intros acc; simpl.
  - destruct acc as [a|]; [|auto].
    split; [left; reflexivity|split; [constructor|intros b Hb; injection Hb; intros ->; lia]].
  - specialize (IH (latest_step acc x)).
    destruct (fold_left latest_step os (latest_step acc x)) as [a|] eqn:E.
    + destruct IH as [Hin [Hall Hacc]].
      destruct acc as [b|]; simpl in *.
      * destruct (day b <? day x) eqn:Hlt; [apply Z.ltb_lt in Hlt|apply Z.ltb_ge in Hlt].
        -- specialize (Hacc x eq_refl).
           split; [destruct Hin as [Hin|Hin]; [injection Hin; intros ->; right; left; reflexivity|right; right; exact Hin]|].
           split; [constructor; [lia|exact Hall]|].
           intros c Hc; injection Hc; intros ->; lia.
        -- specialize (Hacc b eq_refl).
           split; [destruct Hin as [Hin|Hin]; [left; exact Hin|right; right; exact Hin]|].
           split; [constructor; [lia|exact Hall]|].
           intros c Hc; injection Hc; intros ->; lia.
      * specialize (Hacc x eq_refl).
        split; [destruct Hin as [Hin|Hin]; [injection Hin; intros ->; right; left; reflexivity|right; right; exact Hin]|].
        split; [constructor; [lia|exact Hall]|].
        intros c Hc; discriminate.
    + destruct IH as [H1 _]. destruct acc as [b|]; simpl in H1;
        [destruct (day b <? day x)|]; discriminate.
Qed.

Lemma latest_max (os : list PortfolioOffer) (o : PortfolioOffer) :
  In o os -> Forall (fun o' => day o' <= day o) os ->
  exists a, latest os = Some a /\ day a = day o.
Proof.
  intros Hin Hmax. unfold latest. pose proof (latest_spec os None) as H.
  destruct (fold_left latest_step os None) as [a|].
  - destruct H as [[H|H] [Hall _]]; [discriminate|].
    exists a. split; [reflexivity|].
    rewrite List.Forall_forall in Hall, Hmax.
    specialize (Hall o Hin). specialize (Hmax a H). lia.
  - destruct H as [_ ->]. destruct Hin.
Qed.

(** ** Commitment creation *)

(** C1 (code_bug).  [create] checks the number of selected tokens, but
    the boolean that [validateSelectedTokens] computes for the positional
    check is dropped: for tomorrow's offer with the pair (A, B), the
    selection ["Z"] fails the check ([false]) and the portfolio is still
    created and persisted. *)
Theorem create_ignores_token_mismatch :
  fst (validateSelectedTokens ["Z"%string] Fixtures.offer_next Fixtures.db_next) = inr false /\
  fst (create Fixtures.env0 (mkCreatePortfolio 7 ["Z"%string] 4) Fixtures.db_next)
    = inr (mkPortfolio 1 7 4 ["Z"%string] false None) /\
  db_portfolios (snd (create Fixtures.env0 (mkCreatePortfolio 7 ["Z"%string] 4) Fixtures.db_next))
    = [mkPortfolio 1 7 4 ["Z"%string] false None].
Proof. vm_compute. repeat split. Qed.

(** ** Offer generation *)

(** C5.  When the latest offer has day [D] (a maximum over the stored
    offers) and [D + 1 - currentDay > 3], [generateOffers] only reads
    the latest offer: no offer is created, nothing is written. *)
Theorem generateOffers_day_gap_guard (env : Env) (d : DB) (o : PortfolioOffer) :
  In o (db_offers d) ->
  Forall (fun o' => day o' <= day o) (db_offers d) ->
  day o + 1 - currentDay env > MAX_DAYS_THRESHOLD ->
  generateOffers env d = (inr tt, log_query "offers.findLatest" d).
Proof.
  intros Hin Hmax Hgap.
  destruct (latest_max _ _ Hin Hmax) as [a [Ha Hday]].
  unfold generateOffers, bind, offer_findLatest, query. rewrite Ha.
  replace (MAX_DAYS_THRESHOLD <? day a + 1 - currentDay env) with true
    by (symmetry; apply Z.ltb_lt; lia).
  reflexivity.
Qed.

Lemma generateOffers_day_gap_guard_witness :
  In Fixtures.offer_ahead (db_offers Fixtures.db_ahead) /\
  generateOffers Fixtures.env0 Fixtures.db_ahead
    = (inr tt, log_query "offers.findLatest" Fixtures.db_ahead).
Proof.
  split; [left; reflexivity|].
  apply (generateOffers_day_gap_guard Fixtures.env0 Fixtures.db_ahead Fixtures.offer_ahead).
  - left; reflexivity.
  - repeat constructor; simpl; lia.
  - simpl. unfold MAX_DAYS_THRESHOLD. lia.
Defined.

Lemma new_offers_length (id : nat) (ps : list CreatePortfolioOfferEntityParams) :
  List.length (new_offers id ps) = List.length ps.
Proof. revert id; induction ps as [|p ps IH]; intros id; simpl; [reflexivity|now rewrite IH]. Qed.

Lemma new_offers_day (id : nat) (ps : list CreatePortfolioOfferEntityParams) :
  map day (new_offers id ps) = map cp_day ps.
Proof. revert id; induction ps as [|p ps IH]; intros id; simpl; [reflexivity|now rewrite IH]. Qed.

Lemma new_offers_Forall (P : PortfolioOffer -> Prop) (id : nat)
    (ps : list CreatePortfolioOfferEntityParams) :
  Forall (fun p => forall i, P (mkOffer i (cp_day p) (cp_tokenOffers p) WaitingForPricing ∅)) ps ->
  Forall P (new_offers id ps).
Proof.
  revert id; induction ps as [|p ps IH]; intros id H; simpl; [constructor|].
  inversion H; subst. constructor; auto.
Qed.

Lemma make_token_offers_length (avail : list string) :
  List.length (make_token_offers avail) = MAX_TOKEN_OFFERS.
Proof. unfold make_token_offers. rewrite List.length_map, List.length_seq. reflexivity. Qed.

Lemma make_token_offers_tokens (avail : list string) :
  List.length avail = (MAX_TOKEN_OFFERS * 2)%nat ->
  pair_tokens (make_token_offers avail) = avail.
Proof.
  intros H.
  do 12 (destruct avail as [|? avail]; [discriminate|]).
  destruct avail; [reflexivity|discriminate].
Qed.

(** C6 (code_bug; see RESULTS).  When the guard does not fire,
    [generateOffers] appends a batch of 8 offers (the loop bound is
    inclusive: [day <= nextOfferDay + OFFERS_TO_GENERATE] with
    [OFFERS_TO_GENERATE = 7]) on the consecutive days from [nextOfferDay];
    each starts in [WaitingForPricing] with [MAX_TOKEN_OFFERS] pairs that
    split its draw of [2 * MAX_TOKEN_OFFERS] tokens positionally. *)
Theorem generateOffers_batch (env : Env) (d : DB) (nextOfferDay : Z)
  (Hnext : nextOfferDay = match latest (db_offers d) with
                          | Some o => day o + 1
                          | None => currentDay env
                          end)
  (Hguard : nextOfferDay - currentDay env <= MAX_DAYS_THRESHOLD)
  (Hdraw : forall dy, List.length (sampleSize env dy (MAX_TOKEN_OFFERS * 2))
                      = (MAX_TOKEN_OFFERS * 2)%nat) :
  exists created,
    db_offers (snd (generateOffers env d)) = db_offers d ++ created /\
    List.length created = 8%nat /\
    map day created = map (fun i => nextOfferDay + Z.of_nat i) (seq 0 8) /\
    Forall (fun o => offerStatus o = WaitingForPricing /\
                     List.length (tokenOffers o) = MAX_TOKEN_OFFERS /\
                     pair_tokens (tokenOffers o) = sampleSize env (day o) (MAX_TOKEN_OFFERS * 2))
           created.
Proof.
  unfold generateOffers, bind, offer_findLatest, query. simpl.
  assert (Hg : (MAX_DAYS_THRESHOLD <? (match latest (db_offers d) with
                                       | Some o => day o + 1
                                       | None => currentDay env
                                       end) - currentDay env) = false)
    by (apply Z.ltb_ge; rewrite <- Hnext; exact Hguard).
  destruct (latest (db_offers d)) as [o|]; rewrite Hg, <- Hnext; simpl;
  (eexists; split; [reflexivity|]);
  (assert (Hdays : days_incl nextOfferDay (nextOfferDay + OFFERS_TO_GENERATE)
                   = map (fun i => nextOfferDay + Z.of_nat i) (seq 0 8))
     by (unfold days_incl, OFFERS_TO_GENERATE;
         replace (nextOfferDay + 7 - nextOfferDay + 1) with 8 by lia; reflexivity));
  rewrite Hdays; (split; [rewrite new_offers_length, List.length_map; reflexivity|]);
  (split; [rewrite new_offers_day, List.map_map; reflexivity|]);
  apply new_offers_Forall; apply List.Forall_forall; intros p Hp;
  apply List.in_map_iff in Hp as [dy [<- _]]; intros i; cbn [offerStatus tokenOffers day cp_day cp_tokenOffers];
  (split; [reflexivity|split; [apply make_token_offers_length|]]);
  (rewrite make_token_offers_tokens; [reflexivity|apply Hdraw]).
Qed.

Lemma generateOffers_batch_witness :
  exists created,
    db_offers (snd (generateOffers Fixtures.env0 Fixtures.db_empty)) = [] ++ created /\
    List.length created = 8%nat /\
    map day created = map (fun i => 100 + Z.of_nat i) (seq 0 8) /\
    Forall (fun o => offerStatus o = WaitingForPricing /\
                     List.length (tokenOffers o) = MAX_TOKEN_OFFERS /\
                     pair_tokens (tokenOffers o)
                       = sampleSize Fixtures.env0 (day o) (MAX_TOKEN_OFFERS * 2))
           created.
Proof.
  apply (generateOffers_batch Fixtures.env0 Fixtures.db_empty 100).
  - reflexivity.
  - unfold MAX_DAYS_THRESHOLD; simpl; lia.
  - intros dy; reflexivity.
Defined.

(** ** Offer listing *)

(** C7.  [listOffersForDays days] returns exactly the stored offers whose
    day lies in [[currentDay - days, currentDay]], so never an offer of a
    future day. *)
Theorem listOffersForDays_window (env : Env) (days : Z) (d : DB) :
  listOffersForDays env days d =
    (inr (List.filter (fun o => (currentDay env - days <=? day o) && (day o <=? currentDay env))
                      (db_offers d)),
     log_query "offers.find" d) /\
  (forall os o, fst (listOffersForDays env days d) = inr os -> In o os ->
     currentDay env - days <= day o <= currentDay env).
Proof.
  assert (Hf : List.filter (fun o => (currentDay env - days <=? day o) && (day o <? currentDay env + 1))
                 (db_offers d)
             = List.filter (fun o => (currentDay env - days <=? day o) && (day o <=? currentDay env))
                 (db_offers d)).
  { apply List.filter_ext. intros o. f_equal.
    destruct (Z.ltb_spec (day o) (currentDay env + 1));
      destruct (Z.leb_spec (day o) (currentDay env)); lia. }
  split.
  - unfold listOffersForDays, offer_find, query. rewrite Hf. reflexivity.
  - intros os o Hos Hin. unfold listOffersForDays, offer_find, query in Hos.
    simpl in Hos. injection Hos as <-.
    apply List.filter_In in Hin as [_ Hb].
    apply andb_true_iff in Hb as [H1 H2].
    apply Z.leb_le in H1. apply Z.ltb_lt in H2. lia.
Qed.

(** ** Pricing sync: the per-token callback *)

(** C8.  On an absent pricing the callback of [syncOffersPrices] sets the
    skip flag and then reads [pricing.startDayPrice], so it throws a
    [TypeError]: the absent case ends in the per-offer [catch], the
    [shouldSkipOffer] branch is never reached through it. *)
Theorem price_token_absent_throws (api : string -> Z -> option Pricing)
    (pct : Z -> Z -> Z) (offerDay : Z) (st : gmap string Z * bool) (token : string)
    (Habsent : api token offerDay = None) :
  price_token api pct offerDay st token = inl TypeError.
Proof. unfold price_token. rewrite Habsent. reflexivity. Qed.

Lemma price_token_absent_throws_witness :
  getCoinPriceForDay Fixtures.env0 "X" 100 = None /\
  price_token (getCoinPriceForDay Fixtures.env0) (calculatePercentageChange Fixtures.env0)
    100 (∅, false) "X" = inl TypeError.
Proof.
  split; [reflexivity|].
  apply (price_token_absent_throws _ _ 100 (∅, false) "X"). reflexivity.
Defined.

(** ** Portfolio listing *)

(** C10.  [listForUserAndOffers] throws a [BadRequestException] on an
    empty [offerIds] without touching the store; otherwise it queries the
    portfolios of the user in the given offers. *)
Theorem listForUserAndOffers_spec (userId : nat) (offerIds : list nat) (d : DB) :
  listForUserAndOffers userId offerIds d =
  match offerIds with
  | [] => (inl (BadRequestException "At least one offer should be provided."), d)
  | _ => (inr (List.filter (fun p => Nat.eqb (pf_user p) userId &&
                                     existsb (Nat.eqb (pf_offer p)) offerIds)
                           (db_portfolios d)),
          log_query "portfolios.find" d)
  end.
Proof.
  destruct offerIds as [|i ids]; [reflexivity|].
  unfold listForUserAndOffers, portfolio_find, query. do 2 f_equal.
  apply List.filter_ext. intros p. unfold portfolio_matches. simpl.
  rewrite andb_true_r. reflexivity.
Qed.

(** ** Monad and frame lemmas *)

Lemma stable_ret {A X} (obs : DB -> X) (a : A) : stable obs (ret a).
Proof. intros d; reflexivity. Qed.

Lemma stable_throw {A X} (obs : DB -> X) (e : Exn) : stable obs (@throw A e).
Proof. intros d; reflexivity. Qed.

Lemma stable_bind {A B X} (obs : DB -> X) (m : M A) (k : A -> M B) :
  stable obs m -> (forall a, stable obs (k a)) -> stable obs (bind m k).
Proof.
  intros Hm Hk d. unfold bind. specialize (Hm d).
  destruct (m d) as [[e|a] d']; simpl in *; [exact Hm|rewrite Hk; exact Hm].
Qed.

Lemma stable_try_catch {A X} (obs : DB -> X) (m : M A) (h : Exn -> M A) :
  stable obs m -> (forall e, stable obs (h e)) -> stable obs (try_catch m h).
Proof.
  intros Hm Hh d. unfold try_catch. specialize (Hm d).
  destruct (m d) as [[e|a] d']; simpl in *; [rewrite Hh; exact Hm|exact Hm].
Qed.

Lemma stable_for_each {A X} (obs : DB -> X) (xs : list A) (f : A -> M unit) :
  (forall x, In x xs -> stable obs (f x)) -> stable obs (for_each xs f).
Proof.
  induction xs as [|x xs IH]; intros H; simpl; [apply stable_ret|].
  apply stable_bind; [apply H; left; reflexivity|].
  intros _. apply IH. intros y Hy. apply H. right; exact Hy.
Qed.

Lemma events_about_app (wm : Write -> bool) (l : list Event) (e : Event) :
  events_about wm (l ++ [e]) =
  events_about wm l ++ (if event_mentions wm e then [e] else []).
Proof. unfold events_about. rewrite List.filter_app. simpl. destruct (event_mentions wm e); reflexivity. Qed.

Lemma filter_nil_existsb {A} (f : A -> bool) (l : list A) :
  List.filter f l = [] -> existsb f l = false.
Proof.
  induction l as [|x l IH]; simpl; [reflexivity|].
  destruct (f x); [discriminate|exact IH].
Qed.

(** The observation of a store state does not look at the log's queries
    or at writes about other records. *)
Lemma obs_emit_other (wm : Write -> bool) (w : Write) (d : DB) :
  wm w = false ->
  (events_about wm (db_log (emit w d)), buffered_about wm (emit w d)) =
  (events_about wm (db_log d), buffered_about wm d).
Proof.
  intros Hw. unfold emit, buffered_about. destruct d as [os ps us l [ws|]]; simpl.
  - rewrite List.filter_app. simpl. rewrite Hw, app_nil_r. reflexivity.
  - rewrite events_about_app. simpl. rewrite Hw, app_nil_r. reflexivity.
Qed.

Lemma find_map_same {A} (p : A -> bool) (f : A -> A) (l : list A) :
  (forall x, p (f x) = p x) -> (forall x, p x = true -> f x = x) ->
  find p (map f l) = find p l.
Proof.
  intros Hp Hf. induction l as [|x l IH]; simpl; [reflexivity|].
  rewrite Hp. destruct (p x) eqn:E; [rewrite Hf by exact E; reflexivity|exact IH].
Qed.

Lemma find_map_hit {A} (p : A -> bool) (f g : A -> A) (l : list A) :
  (forall x, p (f x) = p x) -> (forall x, p x = true -> f x = g x) ->
  find p (map f l) = option_map g (find p l).
Proof.
  intros Hp Hf. induction l as [|x l IH]; simpl; [reflexivity|].
  rewrite Hp. destruct (p x) eqn:E; [simpl; rewrite Hf by exact E; reflexivity|exact IH].
Qed.

Lemma emit_collections (w : Write) (d : DB) :
  db_offers (emit w d) = db_offers d /\ db_portfolios (emit w d) = db_portfolios d /\
  db_users (emit w d) = db_users d.
Proof. destruct d as [os ps us l [ws|]]; repeat split. Qed.

Lemma stable_useTransaction {A R} (look : DB -> R) (wm : Write -> bool) (f : M A) :
  (forall t d, look (set_tx t d) = look d) ->
  (forall l d, look (set_log l d) = look d) ->
  stable (obs_gen look wm) f -> stable (obs_gen look wm) (useTransaction f).
Proof.
  intros Htx Hlog Hf d. unfold useTransaction.
  specialize (Hf (set_tx (Some []) d)).
  destruct (f (set_tx (Some []) d)) as [[e|a] d']; simpl in *; [reflexivity|].
  unfold obs_gen in *. injection Hf as H1 H2 H3.
  rewrite Htx, Hlog, H1, Htx. simpl.
  rewrite events_about_app, H2. simpl.
  assert (Hx : existsb wm (default [] (db_tx d')) = false).
  { unfold buffered_about in H3. simpl in H3.
    destruct (db_tx d') as [ws|]; simpl; [apply filter_nil_existsb; exact H3|reflexivity]. }
  rewrite Hx, app_nil_r. reflexivity.
Qed.

(** *** Frames of one portfolio *)

Lemma pf_query {A} (pid : nat) (q : string) (f : DB -> A) : stable (obs_pf pid) (query q f).
Proof.
  intros d. unfold obs_pf, obs_gen, query, log_query. simpl.
  rewrite events_about_app. simpl. rewrite app_nil_r. reflexivity.
Qed.

Lemma pf_emit (pid : nat) (w : Write) (d : DB) :
  write_mentions_pf pid w = false -> obs_pf pid (emit w d) = obs_pf pid d.
Proof.
  intros Hw. unfold obs_pf, obs_gen.
  pose proof (obs_emit_other _ _ d Hw) as H. injection H as H1 H2.
  rewrite H1, H2. unfold find_portfolio.
  destruct (emit_collections w d) as [_ [-> _]]. reflexivity.
Qed.

Lemma pf_offer_update (pid id : nat) (st : OfferStatus) (pc : option (gmap string Z)) :
  stable (obs_pf pid) (offer_updateOneById id st pc).
Proof.
  intros d. unfold offer_updateOneById. simpl.
  rewrite <- (pf_emit pid (WOfferUpdate id st pc) d) by reflexivity. reflexivity.
Qed.

Lemma pf_user_update (pid id : nat) (x : Z) : stable (obs_pf pid) (user_update id x).
Proof.
  intros d. unfold user_update. simpl.
  rewrite <- (pf_emit pid (WUserAddPoints id x) d) by reflexivity. reflexivity.
Qed.

Lemma pf_portfolio_update_other (pid id : nat) (b : bool) (x : Z) :
  id <> pid -> stable (obs_pf pid) (portfolio_updateOneById id b x).
Proof.
  intros Hne d. unfold portfolio_updateOneById. simpl.
  rewrite <- (pf_emit pid (WPortfolioUpdate id b x) d)
    by (simpl; apply Nat.eqb_neq; exact Hne).
  unfold obs_pf, obs_gen, find_portfolio. simpl. f_equal. f_equal.
  destruct (emit_collections (WPortfolioUpdate id b x) d) as [_ [-> _]].
  apply find_map_same.
  - intros q. destruct (pf_id q =? id)%nat; reflexivity.
  - intros q Hq. apply Nat.eqb_eq in Hq.
    destruct (pf_id q =? id)%nat eqn:E; [apply Nat.eqb_eq in E; congruence|reflexivity].
Qed.

Lemma pf_useTransaction {A} (pid : nat) (f : M A) :
  stable (obs_pf pid) f -> stable (obs_pf pid) (useTransaction f).
Proof. apply stable_useTransaction; reflexivity. Qed.

(** *** Frames of one offer *)

Lemma offer_query {A} (oid : nat) (q : string) (f : DB -> A) : stable (obs_offer oid) (query q f).
Proof.
  intros d. unfold obs_offer, obs_gen, query, log_query. simpl.
  rewrite events_about_app. simpl. rewrite app_nil_r. reflexivity.
Qed.

Lemma offer_emit (oid : nat) (w : Write) (d : DB) :
  write_mentions_offer oid w = false -> obs_offer oid (emit w d) = obs_offer oid d.
Proof.
  intros Hw. unfold obs_offer, obs_gen.
  pose proof (obs_emit_other _ _ d Hw) as H. injection H as H1 H2.
  rewrite H1, H2. unfold find_offer.
  destruct (emit_collections w d) as [-> _]. reflexivity.
Qed.

Lemma offer_portfolio_update (oid id : nat) (b : bool) (x : Z) :
  stable (obs_offer oid) (portfolio_updateOneById id b x).
Proof.
  intros d. unfold portfolio_updateOneById. simpl.
  rewrite <- (offer_emit oid (WPortfolioUpdate id b x) d) by reflexivity. reflexivity.
Qed.

Lemma offer_user_update (oid id : nat) (x : Z) : stable (obs_offer oid) (user_update id x).
Proof.
  intros d. unfold user_update. simpl.
  rewrite <- (offer_emit oid (WUserAddPoints id x) d) by reflexivity. reflexivity.
Qed.

Lemma offer_update_other (oid id : nat) (st : OfferStatus) (pc : option (gmap string Z)) :
  id <> oid -> stable (obs_offer oid) (offer_updateOneById id st pc).
Proof.
  intros Hne d. unfold offer_updateOneById. simpl.
  rewrite <- (offer_emit oid (WOfferUpdate id st pc) d)
    by (simpl; apply Nat.eqb_neq; exact Hne).
  unfold obs_offer, obs_gen, find_offer. simpl. f_equal. f_equal.
  destruct (emit_collections (WOfferUpdate id st pc) d) as [-> _].
  apply find_map_same.
  - intros o. destruct (offer_id o =? id)%nat; reflexivity.
  - intros o Ho. apply Nat.eqb_eq in Ho.
    destruct (offer_id o =? id)%nat eqn:E; [apply Nat.eqb_eq in E; congruence|reflexivity].
Qed.

Lemma offer_useTransaction {A} (oid : nat) (f : M A) :
  stable (obs_offer oid) f -> stable (obs_offer oid) (useTransaction f).
Proof. apply stable_useTransaction; reflexivity. Qed.

(** ** List helpers *)

Lemma for_each_app {A} (l1 l2 : list A) (f : A -> M unit) (d : DB) :
  for_each (l1 ++ l2) f d = bind (for_each l1 f) (fun _ => for_each l2 f) d.
Proof.
  revert d; induction l1 as [|x l1 IH]; intros d; simpl; [reflexivity|].
  unfold bind at 1 2 3. destruct (f x d) as [[e|a] d']; [reflexivity|].
  rewrite IH. reflexivity.
Qed.

Lemma groupBy_lookup {A} (f : A -> nat) (xs : list A) (k : nat) :
  default [] (groupBy f xs !! k) = List.filter (fun x => Nat.eqb (f x) k) xs.
Proof.
  unfold groupBy.
  assert (H : forall (m : gmap nat (list A)),
    default [] (fold_left (fun m x => <[f x := default [] (m !! f x) ++ [x]]> m) xs m !! k)
    = default [] (m !! k) ++ List.filter (fun x => Nat.eqb (f x) k) xs).
  { induction xs as [|x xs IH]; intros m; simpl; [rewrite app_nil_r; reflexivity|].
    rewrite IH. destruct (Nat.eqb (f x) k) eqn:E.
    - apply Nat.eqb_eq in E. subst k. rewrite lookup_insert_eq. simpl.
      rewrite <- app_assoc. reflexivity.
    - apply Nat.eqb_neq in E. rewrite lookup_insert_ne by exact E. reflexivity. }
  rewrite H. reflexivity.
Qed.

Lemma NoDup_map_filter {A B} (h : A -> B) (p : A -> bool) (l : list A) :
  List.NoDup (map h l) -> List.NoDup (map h (List.filter p l)).
Proof.
  induction l as [|x l IH]; simpl; intros Hnd; [constructor|].
  inversion Hnd as [|? ? Hx Hl]; subst.
  destruct (p x); simpl; [|apply IH; exact Hl].
  constructor; [|apply IH; exact Hl].
  intros Hin. apply Hx. apply List.in_map_iff in Hin as [y [Hy Hin]].
  apply List.filter_In in Hin as [Hin _]. rewrite <- Hy. apply List.in_map. exact Hin.
Qed.

Lemma find_key_unique {A} (h : A -> nat) (l : list A) (x : A) :
  List.NoDup (map h l) -> In x l -> find (fun y => Nat.eqb (h y) (h x)) l = Some x.
Proof.
  induction l as [|y l IH]; simpl; intros Hnd Hin; [destruct Hin|].
  inversion Hnd as [|? ? Hy Hl]; subst.
  destruct Hin as [<-|Hin]; [rewrite Nat.eqb_refl; reflexivity|].
  destruct (Nat.eqb (h y) (h x)) eqn:E; [|apply IH; assumption].
  apply Nat.eqb_eq in E. exfalso. apply Hy. rewrite E. apply List.in_map. exact Hin.
Qed.

Lemma in_key_unique {A} (h : A -> nat) (l : list A) (x y : A) :
  List.NoDup (map h l) -> In x l -> In y l -> h x = h y -> x = y.
Proof.
  intros Hnd Hx Hy Hxy.
  pose proof (find_key_unique h l x Hnd Hx) as E1.
  pose proof (find_key_unique h l y Hnd Hy) as E2.
  rewrite Hxy in E1. congruence.
Qed.

(** ** Frames of the awarding steps *)

Lemma award_portfolio_pf_other (pid : nat) (pc : gmap string Z) (q : Portfolio) :
  pf_id q <> pid -> stable (obs_pf pid) (award_portfolio pc q).
Proof.
  intros Hne. unfold award_portfolio.
  destruct (reduce_points pc (selectedTokens q) 0) as [e|x]; [apply stable_throw|].
  apply pf_useTransaction. apply stable_bind.
  - apply pf_portfolio_update_other. exact Hne.
  - intros _. apply pf_user_update.
Qed.

Lemma award_portfolio_offer (oid : nat) (pc : gmap string Z) (q : Portfolio) :
  stable (obs_offer oid) (award_portfolio pc q).
Proof.
  unfold award_portfolio.
  destruct (reduce_points pc (selectedTokens q) 0) as [e|x]; [apply stable_throw|].
  apply offer_useTransaction. apply stable_bind.
  - apply offer_portfolio_update.
  - intros _. apply offer_user_update.
Qed.

Lemma award_offer_pf_other (pid : nat) (g : gmap nat (list Portfolio)) (o : PortfolioOffer) :
  (forall q, In q (default [] (g !! offer_id o)) -> pf_id q <> pid) ->
  stable (obs_pf pid) (award_offer g o).
Proof.
  intros Hg. unfold award_offer.
  apply stable_try_catch; [|intros _; apply stable_ret].
  apply stable_bind.
  - apply stable_for_each. intros q Hq. apply award_portfolio_pf_other. apply Hg. exact Hq.
  - intros _. apply pf_offer_update.
Qed.

Lemma award_offer_offer_other (oid : nat) (g : gmap nat (list Portfolio)) (o : PortfolioOffer) :
  offer_id o <> oid -> stable (obs_offer oid) (award_offer g o).
Proof.
  intros Hne. unfold award_offer.
  apply stable_try_catch; [|intros _; apply stable_ret].
  apply stable_bind.
  - apply stable_for_each. intros q _. apply award_portfolio_offer.
  - intros _. apply offer_update_other. exact Hne.
Qed.

Lemma award_offer_total (g : gmap nat (list Portfolio)) (o : PortfolioOffer) (d : DB) :
  fst (award_offer g o d) = inr tt.
Proof.
  unfold award_offer, try_catch.
  destruct (bind _ _ d) as [[e|[]] d']; reflexivity.
Qed.

Lemma for_each_total_stable {A X} (obs : DB -> X) (xs : list A) (f : A -> M unit) (d : DB) :
  (forall x d', In x xs -> fst (f x d') = inr tt) ->
  (forall x, In x xs -> stable obs (f x)) ->
  fst (for_each xs f d) = inr tt /\ obs (snd (for_each xs f d)) = obs d.
Proof.
  intros Htot Hst. split; [|apply stable_for_each; exact Hst].
  revert d; induction xs as [|x xs IH]; intros d; simpl; [reflexivity|].
  unfold bind. pose proof (Htot x d (or_introl eq_refl)) as Hx.
  destruct (f x d) as [r d']; simpl in Hx; subst r.
  apply IH; intros y; [intros d'' Hy; apply Htot; right; exact Hy|].
  intros Hy. apply Hst. right; exact Hy.
Qed.

(** ** Points of one portfolio *)

Lemma reduce_points_priced (pc : gmap string Z) (toks : list string) (acc : Z) :
  forallb (fun t => match pc !! t with Some _ => true | None => false end) toks = true ->
  reduce_points pc toks acc = inr (acc + sum_changes pc toks).
Proof.
  revert acc; induction toks as [|t toks IH]; intros acc H; simpl.
  - f_equal. unfold sum_changes. simpl. lia.
  - simpl in H. destruct (pc !! t) as [v|] eqn:E; [|discriminate].
    rewrite IH by exact H. unfold sum_changes. simpl. rewrite E. simpl. f_equal. lia.
Qed.

Lemma reduce_points_unpriced (pc : gmap string Z) (toks : list string) (acc : Z) :
  forallb (fun t => match pc !! t with Some _ => true | None => false end) toks = false ->
  exists e, reduce_points pc toks acc = inl e.
Proof.
  revert acc; induction toks as [|t toks IH]; intros acc H; simpl in *; [discriminate|].
  destruct (pc !! t) as [v|]; [apply IH; exact H|eexists; reflexivity].
Qed.

(** One priced portfolio: its record is awarded and one transaction
    event, holding the award and the credit, is logged for it. *)
Lemma award_portfolio_priced_run (pc : gmap string Z) (q : Portfolio) (d : DB) :
  priced pc q = true ->
  fst (award_portfolio pc q d) = inr tt /\
  obs_pf (pf_id q) (snd (award_portfolio pc q d)) =
    (option_map (award true (sum_changes pc (selectedTokens q))) (find_portfolio (pf_id q) d),
     events_about (write_mentions_pf (pf_id q)) (db_log d) ++
       [EvTx [WPortfolioUpdate (pf_id q) true (sum_changes pc (selectedTokens q));
              WUserAddPoints (pf_user q) (sum_changes pc (selectedTokens q))]],
     buffered_about (write_mentions_pf (pf_id q)) d).
Proof.
  intros H. unfold award_portfolio. rewrite reduce_points_priced by exact H.
  rewrite Z.add_0_l.
  destruct d as [os ps us l tx].
  unfold useTransaction, bind, portfolio_updateOneById, user_update. simpl.
  split; [reflexivity|].
  unfold obs_pf, obs_gen, find_portfolio. simpl.
  rewrite (find_map_hit _ _ (award true (sum_changes pc (selectedTokens q)))).
  - rewrite events_about_app. simpl. rewrite Nat.eqb_refl. reflexivity.
  - intros x; destruct (pf_id x =? pf_id q)%nat eqn:E; simpl; rewrite ?E; reflexivity.
  - intros x E. rewrite E. reflexivity.
Qed.

Lemma award_portfolio_priced_total (pc : gmap string Z) (q : Portfolio) (d : DB) :
  priced pc q = true -> fst (award_portfolio pc q d) = inr tt.
Proof. intros H. apply (award_portfolio_priced_run pc q d H). Qed.

Lemma for_each_unpriced_throws (pc : gmap string Z) (G : list Portfolio) (d : DB) :
  forallb (priced pc) G = false ->
  exists e, fst (for_each G (award_portfolio pc) d) = inl e.
Proof.
  revert d; induction G as [|q G IH]; intros d H; simpl in *; [discriminate|].
  unfold bind.
  destruct (priced pc q) eqn:Hq; simpl in H.
  - pose proof (award_portfolio_priced_total pc q d Hq) as Ht.
    destruct (award_portfolio pc q d) as [r d']; simpl in Ht; subst r.
    apply IH; exact H.
  - unfold award_portfolio.
    unfold priced in Hq. destruct (reduce_points_unpriced _ _ 0 Hq) as [e He].
    rewrite He. exists e; reflexivity.
Qed.

(** Observation after [try { m; k } catch { h }] when [k] and [h] keep it. *)
Lemma obs_try_bind {A B X} (obs : DB -> X) (m : M A) (k : A -> M B) (h : Exn -> M B) (d : DB) :
  (forall a, stable obs (k a)) -> (forall e, stable obs (h e)) ->
  obs (snd (try_catch (bind m k) h d)) = obs (snd (m d)).
Proof.
  intros Hk Hh. unfold try_catch, bind.
  destruct (m d) as [[e|a] d']; simpl.
  - apply Hh.
  - pose proof (Hk a d') as Ha. destruct (k a d') as [[e|b] d'']; simpl in *;
      [rewrite Hh; exact Ha|exact Ha].
Qed.

Lemma obs_for_each_split {A X} (obs : DB -> X) (l1 l2 : list A) (x : A) (f : A -> M unit)
    (d d1 d2 : DB) :
  for_each l1 f d = (inr tt, d1) -> f x d1 = (inr tt, d2) ->
  (forall y, In y l2 -> stable obs (f y)) ->
  obs (snd (for_each (l1 ++ x :: l2) f d)) = obs d2.
Proof.
  intros H1 H2 H3. rewrite for_each_app. unfold bind at 1. rewrite H1. simpl.
  unfold bind at 1. rewrite H2. apply stable_for_each. exact H3.
Qed.

(** ** The awarding run *)

Lemma awardPortfolios_unfold (d : DB) :
  awardPortfolios d =
  for_each (waiting_offers d) (award_offer (awarding_groups d)) (after_award_queries d).
Proof. reflexivity. Qed.

Lemma filter_filter_ext {A} (f g h : A -> bool) (l : list A) :
  (forall x, g x && f x = h x) -> List.filter f (List.filter g l) = List.filter h l.
Proof.
  intros H. induction l as [|x l IH]; simpl; [reflexivity|].
  rewrite <- H. destruct (g x); simpl; [destruct (f x)|]; rewrite ?IH; reflexivity.
Qed.

Lemma in_waiting_offers (d : DB) (o : PortfolioOffer) :
  In o (db_offers d) -> offerStatus o = WaitingForCompletion -> In o (waiting_offers d).
Proof.
  intros Hin Hst. apply List.filter_In. split; [exact Hin|].
  rewrite Hst. reflexivity.
Qed.

Lemma awarding_group_eq (d : DB) (o : PortfolioOffer) :
  In o (waiting_offers d) ->
  default [] (awarding_groups d !! offer_id o) = award_group d (offer_id o).
Proof.
  intros Hin. unfold awarding_groups. rewrite groupBy_lookup. unfold award_group.
  apply filter_filter_ext. intros q. unfold portfolio_matches. simpl.
  destruct (pf_offer q =? offer_id o)%nat eqn:E.
  - apply Nat.eqb_eq in E. rewrite E.
    assert (Hex : existsb (Nat.eqb (offer_id o)) (map offer_id (waiting_offers d)) = true).
    { apply existsb_exists. exists (offer_id o). split; [apply List.in_map; exact Hin|].
      apply Nat.eqb_refl. }
    rewrite Hex. destruct (isAwarded q); reflexivity.
  - rewrite !andb_false_r. reflexivity.
Qed.

Lemma awarding_group_mem (d : DB) (k : nat) (q : Portfolio) :
  In q (default [] (awarding_groups d !! k)) ->
  In q (db_portfolios d) /\ pf_offer q = k /\ isAwarded q = false.
Proof.
  unfold awarding_groups. rewrite groupBy_lookup. intros H.
  apply List.filter_In in H as [H Hk]. apply List.filter_In in H as [H Hm].
  apply Nat.eqb_eq in Hk. unfold portfolio_matches in Hm. simpl in Hm.
  apply andb_true_iff in Hm as [_ Hb].
  split; [exact H|split; [exact Hk|]]. destruct (isAwarded q); [discriminate|reflexivity].
Qed.

Lemma award_group_mem (d : DB) (oid : nat) (q : Portfolio) :
  In q (award_group d oid) ->
  In q (db_portfolios d) /\ pf_offer q = oid /\ isAwarded q = false.
Proof.
  unfold award_group. intros H. apply List.filter_In in H as [H Hb].
  apply andb_true_iff in Hb as [Hk Ha]. apply Nat.eqb_eq in Hk.
  split; [exact H|split; [exact Hk|]]. destruct (isAwarded q); [discriminate|reflexivity].
Qed.

Lemma obs_pf_after_award_queries (pid : nat) (d : DB) :
  obs_pf pid (after_award_queries d) = obs_pf pid d.
Proof.
  unfold after_award_queries.
  pose proof (pf_query pid "portfolios.find" (fun _ => tt) (log_query "offers.findByOfferStatus" d)) as H1.
  pose proof (pf_query pid "offers.findByOfferStatus" (fun _ => tt) d) as H2.
  cbn [snd query] in H1, H2. rewrite H1. exact H2.
Qed.

Lemma obs_offer_after_award_queries (oid : nat) (d : DB) :
  obs_offer oid (after_award_queries d) = obs_offer oid d.
Proof.
  unfold after_award_queries.
  pose proof (offer_query oid "portfolios.find" (fun _ => tt) (log_query "offers.findByOfferStatus" d)) as H1.
  pose proof (offer_query oid "offers.findByOfferStatus" (fun _ => tt) d) as H2.
  cbn [snd query] in H1, H2. rewrite H1. exact H2.
Qed.

Lemma not_in_split_map {A} (h : A -> nat) (l1 l2 : list A) (x : A) :
  List.NoDup (map h (l1 ++ x :: l2)) ->
  forall y, In y l1 \/ In y l2 -> h y <> h x.
Proof.
  intros Hnd y Hy Heq. rewrite List.map_app in Hnd. simpl in Hnd.
  apply List.NoDup_remove_2 in Hnd. apply Hnd. rewrite <- Heq.
  apply List.in_or_app. destruct Hy as [Hy|Hy]; [left|right]; apply List.in_map; exact Hy.
Qed.

(** The step of one offer awards a priced portfolio when every
    portfolio before it in the group is priced. *)
Lemma award_offer_awards (g : gmap nat (list Portfolio)) (o : PortfolioOffer)
    (p : Portfolio) (G1 G2 : list Portfolio) (d : DB) :
  default [] (g !! offer_id o) = G1 ++ p :: G2 ->
  List.NoDup (map pf_id (G1 ++ p :: G2)) ->
  Forall (fun q => priced (pricingChanges o) q = true) G1 ->
  priced (pricingChanges o) p = true ->
  obs_pf (pf_id p) (snd (award_offer g o d)) =
    (option_map (award true (sum_changes (pricingChanges o) (selectedTokens p)))
                (find_portfolio (pf_id p) d),
     events_about (write_mentions_pf (pf_id p)) (db_log d) ++
       [EvTx [WPortfolioUpdate (pf_id p) true (sum_changes (pricingChanges o) (selectedTokens p));
              WUserAddPoints (pf_user p) (sum_changes (pricingChanges o) (selectedTokens p))]],
     buffered_about (write_mentions_pf (pf_id p)) d).
Proof.
  intros Hg Hnd HG1 Hp. unfold award_offer. cbv zeta. rewrite Hg.
  rewrite (obs_try_bind (obs_pf (pf_id p))).
  2: { intros _. apply pf_offer_update. }
  2: { intros _. apply stable_ret. }
  pose proof (not_in_split_map pf_id G1 G2 p Hnd) as Hother.
  destruct (for_each_total_stable (obs_pf (pf_id p)) G1 (award_portfolio (pricingChanges o)) d)
    as [Ht1 Hs1].
  { intros q d' Hq. apply award_portfolio_priced_total.
    rewrite List.Forall_forall in HG1. apply HG1. exact Hq. }
  { intros q Hq. apply award_portfolio_pf_other. apply Hother. left; exact Hq. }
  destruct (for_each G1 (award_portfolio (pricingChanges o)) d) as [r1 d1] eqn:E1.
  simpl in Ht1, Hs1. subst r1.
  destruct (award_portfolio_priced_run (pricingChanges o) p d1 Hp) as [Ht2 Hs2].
  destruct (award_portfolio (pricingChanges o) p d1) as [r2 d2] eqn:E2.
  simpl in Ht2, Hs2. subst r2.
  rewrite (obs_for_each_split (obs_pf (pf_id p)) G1 G2 p _ d d1 d2 E1 E2).
  - rewrite Hs2. unfold obs_pf, obs_gen in Hs1. injection Hs1 as Hf He Hb.
    rewrite Hf, He, Hb. reflexivity.
  - intros q Hq. apply award_portfolio_pf_other. apply Hother. right; exact Hq.
Qed.

Lemma award_group_split_ids (d : DB) (oid : nat) (p : Portfolio) (G1 G2 : list Portfolio) :
  List.NoDup (map pf_id (db_portfolios d)) ->
  award_group d oid = G1 ++ p :: G2 -> List.NoDup (map pf_id (G1 ++ p :: G2)).
Proof. intros Hnd Hs. rewrite <- Hs. apply NoDup_map_filter. exact Hnd. Qed.

(** The whole run: a portfolio of a waiting offer, priced and preceded in
    its group by priced portfolios only, is awarded once. *)
Lemma awardPortfolios_awards (d : DB) (o : PortfolioOffer) (p : Portfolio)
    (G1 G2 : list Portfolio) :
  List.NoDup (map offer_id (db_offers d)) ->
  List.NoDup (map pf_id (db_portfolios d)) ->
  In o (db_offers d) -> offerStatus o = WaitingForCompletion ->
  award_group d (offer_id o) = G1 ++ p :: G2 ->
  Forall (fun q => priced (pricingChanges o) q = true) G1 ->
  priced (pricingChanges o) p = true ->
  obs_pf (pf_id p) (snd (awardPortfolios d)) =
    (Some (award true (sum_changes (pricingChanges o) (selectedTokens p)) p),
     events_about (write_mentions_pf (pf_id p)) (db_log d) ++
       [EvTx [WPortfolioUpdate (pf_id p) true (sum_changes (pricingChanges o) (selectedTokens p));
              WUserAddPoints (pf_user p) (sum_changes (pricingChanges o) (selectedTokens p))]],
     buffered_about (write_mentions_pf (pf_id p)) d).
Proof.
  intros Hndo Hndp Hin Hst Hgrp HG1 Hp.
  assert (HpG : In p (award_group d (offer_id o)))
    by (rewrite Hgrp; apply List.in_or_app; right; left; reflexivity).
  destruct (award_group_mem d (offer_id o) p HpG) as [Hpin [Hpoff _]].
  assert (Hfind : find_portfolio (pf_id p) d = Some p)
    by (apply (find_key_unique pf_id); assumption).
  rewrite awardPortfolios_unfold.
  pose proof (in_waiting_offers d o Hin Hst) as Hw.
  destruct (List.in_split o (waiting_offers d) Hw) as [L1 [L2 HL]].
  assert (HndW : List.NoDup (map offer_id (L1 ++ o :: L2)))
    by (rewrite <- HL; apply NoDup_map_filter; exact Hndo).
  pose proof (not_in_split_map offer_id L1 L2 o HndW) as Hoth.
  assert (Hst_other : forall x, In x L1 \/ In x L2 ->
            stable (obs_pf (pf_id p)) (award_offer (awarding_groups d) x)).
  { intros x Hx. apply award_offer_pf_other. intros q Hq Hqid.
    destruct (awarding_group_mem d (offer_id x) q Hq) as [Hqin [Hqoff _]].
    assert (q = p) by (apply (in_key_unique pf_id (db_portfolios d)); assumption).
    subst q. apply (Hoth x Hx). congruence. }
  rewrite HL.
  destruct (for_each_total_stable (obs_pf (pf_id p)) L1
              (award_offer (awarding_groups d)) (after_award_queries d)) as [Ht1 Hs1].
  { intros x d' _. apply award_offer_total. }
  { intros x Hx. apply Hst_other. left; exact Hx. }
  destruct (for_each L1 (award_offer (awarding_groups d)) (after_award_queries d))
    as [r1 d1] eqn:E1.
  simpl in Ht1, Hs1. subst r1.
  pose proof (award_offer_total (awarding_groups d) o d1) as Ht2.
  pose proof (award_offer_awards (awarding_groups d) o p G1 G2 d1) as Hs2.
  destruct (award_offer (awarding_groups d) o d1) as [r2 d2] eqn:E2.
  simpl in Ht2, Hs2. subst r2.
  rewrite (obs_for_each_split (obs_pf (pf_id p)) L1 L2 o _ _ d1 d2 E1 E2).
  - rewrite Hs2.
    + rewrite obs_pf_after_award_queries in Hs1.
      unfold obs_pf, obs_gen in Hs1. injection Hs1 as Hf He Hb.
      rewrite Hf, He, Hb, Hfind. reflexivity.
    + rewrite awarding_group_eq by (rewrite HL; apply List.in_or_app; right; left; reflexivity).
      exact Hgrp.
    + apply (award_group_split_ids d (offer_id o)); assumption.
    + exact HG1.
    + exact Hp.
  - intros x Hx. apply Hst_other. right; exact Hx.
Qed.

(** ** Portfolio ids are kept by the awarding run *)

Lemma stable_useTransaction_look {A X} (look : DB -> X) (f : M A) :
  (forall t d, look (set_tx t d) = look d) -> (forall l d, look (set_log l d) = look d) ->
  stable look f -> stable look (useTransaction f).
Proof.
  intros Htx Hlog Hf d. unfold useTransaction.
  specialize (Hf (set_tx (Some []) d)).
  destruct (f (set_tx (Some []) d)) as [[e|a] d']; simpl in *; [reflexivity|].
  rewrite Htx, Hlog, Hf, Htx. reflexivity.
Qed.

Lemma pf_ids_emit (w : Write) (d : DB) : pf_ids (emit w d) = pf_ids d.
Proof. unfold pf_ids. destruct (emit_collections w d) as [_ [-> _]]. reflexivity. Qed.

Lemma award_portfolio_pf_ids (pc : gmap string Z) (q : Portfolio) :
  stable pf_ids (award_portfolio pc q).
Proof.
  unfold award_portfolio.
  destruct (reduce_points pc (selectedTokens q) 0) as [e|x]; [apply stable_throw|].
  apply stable_useTransaction_look; [reflexivity|reflexivity|].
  apply stable_bind.
  - intros d. unfold portfolio_updateOneById, pf_ids. simpl.
    rewrite List.map_map.
    apply List.map_ext. intros y. destruct (pf_id y =? pf_id q)%nat; reflexivity.
  - intros _ d. unfold user_update. simpl. apply pf_ids_emit.
Qed.

Lemma award_offer_pf_ids (g : gmap nat (list Portfolio)) (o : PortfolioOffer) :
  stable pf_ids (award_offer g o).
Proof.
  unfold award_offer. apply stable_try_catch; [|intros _; apply stable_ret].
  apply stable_bind.
  - apply stable_for_each. intros q _. apply award_portfolio_pf_ids.
  - intros _ d. unfold markOfferCompleted, offer_updateOneById. simpl. apply pf_ids_emit.
Qed.

Lemma awardPortfolios_pf_ids (d : DB) : pf_ids (snd (awardPortfolios d)) = pf_ids d.
Proof.
  rewrite awardPortfolios_unfold.
  rewrite (stable_for_each pf_ids _ _ (fun x _ => award_offer_pf_ids _ x)).
  reflexivity.
Qed.

(** A later run leaves an awarded portfolio alone: the non-awarded query
    does not return it. *)
Lemma awardPortfolios_skips_awarded (d : DB) (p : Portfolio) :
  List.NoDup (pf_ids d) -> In p (db_portfolios d) -> isAwarded p = true ->
  obs_pf (pf_id p) (snd (awardPortfolios d)) = obs_pf (pf_id p) d.
Proof.
  intros Hnd Hin Haw. rewrite awardPortfolios_unfold.
  rewrite (stable_for_each (obs_pf (pf_id p))).
  - apply obs_pf_after_award_queries.
  - intros x _. apply award_offer_pf_other. intros q Hq Hqid.
    destruct (awarding_group_mem d (offer_id x) q Hq) as [Hqin [_ Hqa]].
    assert (q = p) by (apply (in_key_unique pf_id (db_portfolios d)); assumption).
    congruence.
Qed.

(** ** The ledger is kept by every step of the awarding run *)

Lemma credits_in_app (u : nat) (ws1 ws2 : list Write) :
  credits_in u (ws1 ++ ws2) = credits_in u ws1 + credits_in u ws2.
Proof.
  induction ws1 as [|w ws1 IH]; simpl; [reflexivity|].
  destruct w; rewrite ?IH; lia.
Qed.

Lemma credited_app (u : nat) (l1 l2 : list Event) :
  credited u (l1 ++ l2) = credited u l1 + credited u l2.
Proof.
  induction l1 as [|e l1 IH]; simpl; [reflexivity|]. unfold credited in *. rewrite IH. lia.
Qed.

Lemma credit_total_emit (u : nat) (w : Write) (d : DB) :
  credit_total u (emit w d) = credit_total u d + credits_in u [w].
Proof.
  destruct d as [os ps us l [ws|]]; unfold credit_total, emit; simpl;
    rewrite ?credits_in_app, ?credited_app; simpl; lia.
Qed.

Lemma find_user_emit (u : nat) (w : Write) (d : DB) :
  find_user u (emit w d) = find_user u d.
Proof. unfold find_user. destruct (emit_collections w d) as [_ [_ ->]]. reflexivity. Qed.

Lemma ledger_emit_other (u : nat) (w : Write) (d : DB) :
  credits_in u [w] = 0 -> ledger u (emit w d) = ledger u d.
Proof.
  intros H. unfold ledger. rewrite find_user_emit, credit_total_emit, H, Z.add_0_r.
  reflexivity.
Qed.

Lemma ledger_same (u : nat) (d d' : DB) :
  find_user u d' = find_user u d -> credit_total u d' = credit_total u d ->
  ledger u d' = ledger u d.
Proof. intros H1 H2. unfold ledger. rewrite H1, H2. reflexivity. Qed.

Lemma ledger_log_query (u : nat) (q : string) (d : DB) :
  ledger u (log_query q d) = ledger u d.
Proof.
  apply ledger_same; [reflexivity|].
  destruct d as [os ps us l t]. unfold credit_total, log_query. simpl.
  rewrite credited_app. simpl. lia.
Qed.

Lemma ledger_query {A} (u : nat) (q : string) (f : DB -> A) : stable (ledger u) (query q f).
Proof. intros d. apply ledger_log_query. Qed.

Lemma ledger_offer_update (u id : nat) (st : OfferStatus) (pc : option (gmap string Z)) :
  stable (ledger u) (offer_updateOneById id st pc).
Proof.
  intros d. unfold offer_updateOneById. simpl.
  rewrite <- (ledger_emit_other u (WOfferUpdate id st pc) d) by reflexivity.
  apply ledger_same; reflexivity.
Qed.

Lemma ledger_portfolio_update (u id : nat) (b : bool) (x : Z) :
  stable (ledger u) (portfolio_updateOneById id b x).
Proof.
  intros d. unfold portfolio_updateOneById. simpl.
  rewrite <- (ledger_emit_other u (WPortfolioUpdate id b x) d) by reflexivity.
  apply ledger_same; reflexivity.
Qed.

Lemma ledger_user_update (u id : nat) (x : Z) : stable (ledger u) (user_update id x).
Proof.
  intros d. unfold user_update. simpl. unfold ledger.
  change (credit_total u (set_users _ (emit (WUserAddPoints id x) d)))
    with (credit_total u (emit (WUserAddPoints id x) d)).
  rewrite credit_total_emit. unfold find_user. simpl.

  destruct (Nat.eqb id u) eqn:E.
  - apply Nat.eqb_eq in E. subst id.
    rewrite (find_map_hit _ _ (fun usr => mkUser (user_id usr) (balance usr + x))).
    2: { intros y. destruct (Nat.eqb (user_id y) u) eqn:Ey; simpl; rewrite ?Ey; reflexivity. }
    2: { intros y Hy. rewrite Hy. reflexivity. }
    destruct (find _ (db_users d)) as [usr|]; simpl; [f_equal; lia|reflexivity].
  - rewrite (find_map_same (fun usr => Nat.eqb (user_id usr) u)).
    + destruct (find _ (db_users d)) as [usr|]; simpl; [f_equal; lia|reflexivity].
    + intros y. destruct (Nat.eqb (user_id y) id); reflexivity.
    + intros y Hy. apply Nat.eqb_eq in Hy. rewrite Hy, Nat.eqb_sym, E. reflexivity.
Qed.

Lemma ledger_useTransaction {A} (u : nat) (f : M A) :
  stable (ledger u) f -> stable (ledger u) (useTransaction f).
Proof.
  intros Hf d. unfold useTransaction.
  specialize (Hf (set_tx (Some []) d)).
  destruct (f (set_tx (Some []) d)) as [[e|a] d']; simpl in *; [reflexivity|].
  unfold ledger, credit_total, find_user in *. simpl in *.
  destruct (find _ (db_users d')) as [usr|]; destruct (find _ (db_users d)) as [usr'|];
    simpl in *; try discriminate; [|reflexivity].
  injection Hf as Hf. rewrite credited_app in *. simpl.
  destruct (db_tx d') as [ws|]; simpl in *; f_equal; lia.
Qed.

Lemma award_portfolio_ledger (u : nat) (pc : gmap string Z) (q : Portfolio) :
  stable (ledger u) (award_portfolio pc q).
Proof.
  unfold award_portfolio.
  destruct (reduce_points pc (selectedTokens q) 0) as [e|x]; [apply stable_throw|].
  apply ledger_useTransaction. apply stable_bind.
  - apply ledger_portfolio_update.
  - intros _. apply ledger_user_update.
Qed.

Lemma award_offer_ledger (u : nat) (g : gmap nat (list Portfolio)) (o : PortfolioOffer) :
  stable (ledger u) (award_offer g o).
Proof.
  unfold award_offer. apply stable_try_catch; [|intros _; apply stable_ret].
  apply stable_bind.
  - apply stable_for_each. intros q _. apply award_portfolio_ledger.
  - intros _. apply ledger_offer_update.
Qed.

(** A run of [awardPortfolios] changes each balance by exactly the credits
    it writes for that user. *)
Lemma awardPortfolios_ledger (u : nat) (d : DB) :
  ledger u (snd (awardPortfolios d)) = ledger u d.
Proof.
  rewrite awardPortfolios_unfold.
  rewrite (stable_for_each (ledger u) _ _ (fun x _ => award_offer_ledger u _ x)).
  unfold after_award_queries. rewrite !ledger_log_query. reflexivity.
Qed.

(** ** Awarding one portfolio *)

(** C2 (amended).  Let [p] be a non-awarded portfolio of a
    WaitingForCompletion offer [o] whose selected tokens all have a
    percentage change, and suppose every portfolio before [p] in the
    offer's non-awarded group also has all its tokens priced.  Then, with
    offer and portfolio ids unique, after [awardPortfolios]: [p] is stored
    with [isAwarded = true] and [earnedPoints] the sum [s] of the changes
    of its tokens; exactly one new logged event is about [p], a single
    transaction holding the award and the credit of [s] to [p]'s user;
    every user's balance moved by exactly the credits logged for it; and a
    second run leaves [p] and its events untouched. *)
Theorem awardPortfolios_award_once (d : DB) (o : PortfolioOffer) (p : Portfolio)
    (G1 G2 : list Portfolio) :
  List.NoDup (map offer_id (db_offers d)) ->
  List.NoDup (pf_ids d) ->
  In o (db_offers d) -> offerStatus o = WaitingForCompletion ->
  award_group d (offer_id o) = G1 ++ p :: G2 ->
  Forall (fun q => priced (pricingChanges o) q = true) G1 ->
  priced (pricingChanges o) p = true ->
  let s := sum_changes (pricingChanges o) (selectedTokens p) in
  let d1 := snd (awardPortfolios d) in
  find_portfolio (pf_id p) d1 = Some (award true s p) /\
  events_about (write_mentions_pf (pf_id p)) (db_log d1) =
    events_about (write_mentions_pf (pf_id p)) (db_log d) ++
      [EvTx [WPortfolioUpdate (pf_id p) true s; WUserAddPoints (pf_user p) s]] /\
  (forall u, ledger u d1 = ledger u d) /\
  obs_pf (pf_id p) (snd (awardPortfolios d1)) = obs_pf (pf_id p) d1.
Proof.
  intros Hndo Hndp Hin Hst Hgrp HG1 Hp s d1.
  pose proof (awardPortfolios_awards d o p G1 G2 Hndo Hndp Hin Hst Hgrp HG1 Hp) as H.
  unfold obs_pf, obs_gen in H. injection H as H1 H2 _.
  split; [exact H1|]. split; [exact H2|]. split; [intros u; apply awardPortfolios_ledger|].
  assert (Hin1 : In (award true s p) (db_portfolios d1))
    by (apply find_some in H1; exact (proj1 H1)).
  assert (Hnd1 : List.NoDup (pf_ids d1))
    by (unfold d1; rewrite awardPortfolios_pf_ids; exact Hndp).
  exact (awardPortfolios_skips_awarded d1 (award true s p) Hnd1 Hin1 eq_refl).
Qed.

Lemma awardPortfolios_award_once_witness :
  let d1 := snd (awardPortfolios Fixtures.db_award_ok) in
  find_portfolio 21 d1 = Some (award true (-3) Fixtures.pf_21) /\
  events_about (write_mentions_pf 21) (db_log d1) =
    [EvTx [WPortfolioUpdate 21 true (-3); WUserAddPoints 8 (-3)]] /\
  (forall u, ledger u d1 = ledger u Fixtures.db_award_ok) /\
  obs_pf 21 (snd (awardPortfolios d1)) = obs_pf 21 d1.
Proof.
  apply (awardPortfolios_award_once Fixtures.db_award_ok Fixtures.offer_AB Fixtures.pf_21
           [Fixtures.pf_20] []).
  - vm_compute. repeat constructor; simpl; intuition discriminate.
  - vm_compute. repeat constructor; simpl; intuition discriminate.
  - left. reflexivity.
  - reflexivity.
  - vm_compute. reflexivity.
  - repeat constructor.
  - vm_compute. reflexivity.
Defined.

(** C2 counterexample.  In [Fixtures.db_award] portfolio 11 selected "A",
    which is priced, but portfolio 10 before it selected "B", which is
    not: the throw for portfolio 10 leaves the offer's loop, and after
    [awardPortfolios] portfolio 11 is still not awarded, no event is about
    it and user 7's balance is unchanged. *)
Lemma awardPortfolios_award_once_counterexample :
  let d := Fixtures.db_award in
  let p := mkPortfolio 11 7 1 ["A"%string] false None in
  In Fixtures.offer_priced (db_offers d) /\
  offerStatus Fixtures.offer_priced = WaitingForCompletion /\
  In p (award_group d 1) /\ priced Fixtures.pc_A p = true /\
  find_portfolio 11 (snd (awardPortfolios d)) = Some p /\
  events_about (write_mentions_pf 11) (db_log (snd (awardPortfolios d))) = [] /\
  find_user 7 (snd (awardPortfolios d)) = Some (mkUser 7 1000).
Proof. vm_compute. repeat split; auto. Qed.

(** ** The offer's record after the awarding run *)

Lemma offer_ids_emit (w : Write) (d : DB) : offer_ids (emit w d) = offer_ids d.
Proof. unfold offer_ids. destruct (emit_collections w d) as [-> _]. reflexivity. Qed.

Lemma offer_ids_offer_update (id : nat) (st : OfferStatus) (pc : option (gmap string Z)) :
  stable offer_ids (offer_updateOneById id st pc).
Proof.
  intros d. unfold offer_updateOneById, offer_ids. simpl. rewrite List.map_map.
  apply List.map_ext. intros y. destruct (offer_id y =? id)%nat; reflexivity.
Qed.

Lemma award_portfolio_offer_ids (pc : gmap string Z) (q : Portfolio) :
  stable offer_ids (award_portfolio pc q).
Proof.
  unfold award_portfolio.
  destruct (reduce_points pc (selectedTokens q) 0) as [e|x]; [apply stable_throw|].
  apply stable_useTransaction_look; [reflexivity|reflexivity|].
  apply stable_bind.
  - intros d. unfold portfolio_updateOneById. simpl. apply offer_ids_emit.
  - intros _ d. unfold user_update. simpl. apply offer_ids_emit.
Qed.

Lemma award_offer_offer_ids (g : gmap nat (list Portfolio)) (o : PortfolioOffer) :
  stable offer_ids (award_offer g o).
Proof.
  unfold award_offer. apply stable_try_catch; [|intros _; apply stable_ret].
  apply stable_bind.
  - apply stable_for_each. intros q _. apply award_portfolio_offer_ids.
  - intros _. apply offer_ids_offer_update.
Qed.

Lemma awardPortfolios_offer_ids (d : DB) : offer_ids (snd (awardPortfolios d)) = offer_ids d.
Proof.
  rewrite awardPortfolios_unfold.
  rewrite (stable_for_each offer_ids _ _ (fun x _ => award_offer_offer_ids _ x)).
  reflexivity.
Qed.

Lemma find_offer_markOfferCompleted (oid : nat) (d : DB) :
  find_offer oid (snd (markOfferCompleted oid d)) =
  option_map (set_offer_status Completed None) (find_offer oid d).
Proof.
  unfold markOfferCompleted, offer_updateOneById, find_offer. simpl.
  apply find_map_hit.
  - intros y. destruct (offer_id y =? oid)%nat eqn:E; simpl; rewrite ?E; reflexivity.
  - intros y Hy. rewrite Hy. reflexivity.
Qed.

(** One offer step: the offer is marked Completed exactly when its whole
    group is priced; otherwise the first throw skips the completion. *)
Lemma award_offer_record (g : gmap nat (list Portfolio)) (o : PortfolioOffer) (d : DB) :
  find_offer (offer_id o) (snd (award_offer g o d)) =
  if forallb (priced (pricingChanges o)) (default [] (g !! offer_id o))
  then option_map (set_offer_status Completed None) (find_offer (offer_id o) d)
  else find_offer (offer_id o) d.
Proof.
  unfold award_offer. cbv zeta.
  set (G := default [] (g !! offer_id o)).
  assert (Hst : obs_offer (offer_id o) (snd (for_each G (award_portfolio (pricingChanges o)) d))
                = obs_offer (offer_id o) d)
    by (apply stable_for_each; intros q _; apply award_portfolio_offer).
  destruct (forallb (priced (pricingChanges o)) G) eqn:Hall.
  - assert (Ht : fst (for_each G (award_portfolio (pricingChanges o)) d) = inr tt).
    { apply (for_each_total_stable (fun _ => tt)).
      - intros q d' Hq. apply award_portfolio_priced_total.
        rewrite forallb_forall in Hall. apply Hall. exact Hq.
      - intros q _ d'. reflexivity. }
    unfold try_catch, bind.
    destruct (for_each G (award_portfolio (pricingChanges o)) d) as [[e|[]] d'];
      simpl in Ht, Hst; [discriminate|].
    pose proof (find_offer_markOfferCompleted (offer_id o) d') as Hm.
    destruct (markOfferCompleted (offer_id o) d') as [[e|[]] d'']; simpl in *;
      rewrite Hm; unfold obs_offer, obs_gen in Hst; congruence.
  - destruct (for_each_unpriced_throws (pricingChanges o) G d Hall) as [e He].
    unfold try_catch, bind.
    destruct (for_each G (award_portfolio (pricingChanges o)) d) as [[e'|[]] d'];
      simpl in He, Hst; [|discriminate].
    simpl. unfold obs_offer, obs_gen in Hst. congruence.
Qed.

(** The whole run: a waiting offer's record is Completed exactly when its
    whole non-awarded group is priced, and left as it was otherwise. *)
Lemma awardPortfolios_offer_record (d : DB) (o : PortfolioOffer) :
  List.NoDup (offer_ids d) -> In o (db_offers d) -> offerStatus o = WaitingForCompletion ->
  find_offer (offer_id o) (snd (awardPortfolios d)) =
  Some (if forallb (priced (pricingChanges o)) (award_group d (offer_id o))
        then set_offer_status Completed None o else o).
Proof.
  intros Hndo Hin Hst.
  assert (Hfind : find_offer (offer_id o) d = Some o)
    by (apply (find_key_unique offer_id); assumption).
  rewrite awardPortfolios_unfold.
  pose proof (in_waiting_offers d o Hin Hst) as Hw.
  destruct (List.in_split o (waiting_offers d) Hw) as [L1 [L2 HL]].
  assert (HndW : List.NoDup (map offer_id (L1 ++ o :: L2)))
    by (rewrite <- HL; apply NoDup_map_filter; exact Hndo).
  pose proof (not_in_split_map offer_id L1 L2 o HndW) as Hoth.
  assert (Hgrp : default [] (awarding_groups d !! offer_id o) = award_group d (offer_id o))
    by (apply awarding_group_eq; exact Hw).
  rewrite HL.
  destruct (for_each_total_stable (obs_offer (offer_id o)) L1
              (award_offer (awarding_groups d)) (after_award_queries d)) as [Ht1 Hs1].
  { intros x d' _. apply award_offer_total. }
  { intros x Hx. apply award_offer_offer_other. apply Hoth. left; exact Hx. }
  destruct (for_each L1 (award_offer (awarding_groups d)) (after_award_queries d))
    as [r1 d1] eqn:E1.
  simpl in Ht1, Hs1. subst r1.
  pose proof (award_offer_total (awarding_groups d) o d1) as Ht2.
  pose proof (award_offer_record (awarding_groups d) o d1) as Hs2.
  destruct (award_offer (awarding_groups d) o d1) as [r2 d2] eqn:E2.
  simpl in Ht2, Hs2. subst r2.
  pose proof (obs_for_each_split (obs_offer (offer_id o)) L1 L2 o _ _ d1 d2 E1 E2) as Hsp.
  change (find_offer (offer_id o) ?x) with (fst (fst (obs_offer (offer_id o) x))).
  rewrite Hsp.
  - unfold obs_offer at 1, obs_gen at 1. simpl. rewrite Hs2, Hgrp.
    rewrite obs_offer_after_award_queries in Hs1. unfold obs_offer, obs_gen in Hs1.
    injection Hs1 as Hf _ _. rewrite Hf, Hfind.
    destruct (forallb (priced (pricingChanges o)) (award_group d (offer_id o))); reflexivity.
  - intros x Hx. apply award_offer_offer_other. apply Hoth. right; exact Hx.
Qed.

Lemma waiting_offers_mem (d : DB) (x : PortfolioOffer) :
  In x (waiting_offers d) -> In x (db_offers d) /\ offerStatus x = WaitingForCompletion.
Proof.
  unfold waiting_offers. intros H. apply List.filter_In in H as [H Hb].
  rewrite andb_true_r in Hb. apply bool_decide_eq_true in Hb. split; assumption.
Qed.

(** C3 (amended).  With offer ids unique, after [awardPortfolios] a
    WaitingForCompletion offer [o] is Completed exactly when every
    portfolio of its non-awarded group has all its tokens priced; when
    one of them is not, the throw leaves the offer's loop before
    [markOfferCompleted], the offer is unchanged, and
    [listOffersWaitingForCompletion] still returns it, so the next run
    retries it. *)
Theorem awardPortfolios_completion (d : DB) (o : PortfolioOffer) :
  List.NoDup (offer_ids d) -> In o (db_offers d) -> offerStatus o = WaitingForCompletion ->
  let all_priced := forallb (priced (pricingChanges o)) (award_group d (offer_id o)) in
  let d1 := snd (awardPortfolios d) in
  find_offer (offer_id o) d1 =
    Some (if all_priced then set_offer_status Completed None o else o) /\
  fst (listOffersWaitingForCompletion d1) = inr (waiting_offers d1) /\
  (In (offer_id o) (map offer_id (waiting_offers d1)) <-> all_priced = false).
Proof.
  intros Hndo Hin Hst all_priced d1.
  pose proof (awardPortfolios_offer_record d o Hndo Hin Hst) as Hrec.
  fold all_priced d1 in Hrec.
  split; [exact Hrec|]. split; [reflexivity|].
  assert (Hnd1 : List.NoDup (offer_ids d1))
    by (unfold d1; rewrite awardPortfolios_offer_ids; exact Hndo).
  pose proof Hrec as Hin1. unfold find_offer in Hin1. apply find_some in Hin1 as [Hin1 _].
  split.
  - intros Hw. apply List.in_map_iff in Hw as [x [Hx Hxw]].
    destruct (waiting_offers_mem d1 x Hxw) as [Hxin Hxst].
    destruct all_priced; [|reflexivity].
    assert (x = set_offer_status Completed None o)
      by (apply (in_key_unique offer_id (db_offers d1)); assumption).
    subst x. discriminate.
  - intros Hf. rewrite Hf in Hin1. apply List.in_map.
    apply in_waiting_offers; assumption.
Qed.

Lemma awardPortfolios_completion_witness :
  let d1 := snd (awardPortfolios Fixtures.db_award_ok) in
  find_offer 2 d1 = Some (set_offer_status Completed None Fixtures.offer_AB) /\
  fst (listOffersWaitingForCompletion d1) = inr (waiting_offers d1) /\
  (In 2%nat (map offer_id (waiting_offers d1)) <-> true = false).
Proof.
  apply (awardPortfolios_completion Fixtures.db_award_ok Fixtures.offer_AB).
  - vm_compute. repeat constructor; simpl; intuition discriminate.
  - left. reflexivity.
  - reflexivity.
Defined.

(** C3 counterexample.  In [Fixtures.db_award] portfolio 10 selected "B",
    which has no percentage change: after [awardPortfolios] offer 1 is
    still WaitingForCompletion and [listOffersWaitingForCompletion] still
    returns it. *)
Lemma awardPortfolios_completion_counterexample :
  let d1 := snd (awardPortfolios Fixtures.db_award) in
  find_offer 1 d1 = Some Fixtures.offer_priced /\
  offerStatus Fixtures.offer_priced = WaitingForCompletion /\
  fst (listOffersWaitingForCompletion d1) = inr [Fixtures.offer_priced].
Proof. vm_compute. repeat split. Qed.

(** C9.  With offer ids unique, a WaitingForCompletion offer [o] with no
    non-awarded portfolio gets the empty group, its step in
    [awardPortfolios] is exactly [markOfferCompleted] (no portfolio or
    balance write), and after the run it is Completed. *)
Theorem awardPortfolios_empty_group (d : DB) (o : PortfolioOffer) :
  List.NoDup (offer_ids d) -> In o (db_offers d) -> offerStatus o = WaitingForCompletion ->
  award_group d (offer_id o) = [] ->
  default [] (awarding_groups d !! offer_id o) = [] /\
  (forall d', award_offer (awarding_groups d) o d' = markOfferCompleted (offer_id o) d') /\
  find_offer (offer_id o) (snd (awardPortfolios d)) = Some (set_offer_status Completed None o).
Proof.
  intros Hndo Hin Hst Hnil.
  assert (Hg : default [] (awarding_groups d !! offer_id o) = [])
    by (rewrite awarding_group_eq by (apply in_waiting_offers; assumption); exact Hnil).
  split; [exact Hg|]. split.
  - intros d'. unfold award_offer. cbv zeta. rewrite Hg.
    unfold try_catch, bind. simpl. reflexivity.
  - rewrite (awardPortfolios_offer_record d o Hndo Hin Hst), Hnil. reflexivity.
Qed.

Lemma awardPortfolios_empty_group_witness :
  default [] (awarding_groups Fixtures.db_no_portfolios !! 1%nat) = [] /\
  (forall d', award_offer (awarding_groups Fixtures.db_no_portfolios) Fixtures.offer_priced d'
              = markOfferCompleted 1 d') /\
  find_offer 1 (snd (awardPortfolios Fixtures.db_no_portfolios))
    = Some (set_offer_status Completed None Fixtures.offer_priced).
Proof.
  apply (awardPortfolios_empty_group Fixtures.db_no_portfolios Fixtures.offer_priced).
  - vm_compute. repeat constructor; simpl; intuition discriminate.
  - left. reflexivity.
  - reflexivity.
  - vm_compute. reflexivity.
Defined.

(** ** Pricing sync with an absent token *)

Lemma price_token_some (api : string -> Z -> option Pricing) (pct : Z -> Z -> Z)
    (offerDay : Z) (m : gmap string Z) (b : bool) (t : string) (p : Pricing) :
  api t offerDay = Some p ->
  price_token api pct offerDay (m, b) t = inr (<[t := pct (startDayPrice p) (endDayPrice p)]> m, b).
Proof. intros H. unfold price_token. rewrite H. reflexivity. Qed.

(** The flag [shouldSkipOffer] is only set together with the throw, so
    the pairs loop reaches every pair until a token is absent, and that
    token makes it fail. *)
Lemma price_pairs_absent (api : string -> Z -> option Pricing) (pct : Z -> Z -> Z)
    (offerDay : Z) (m : gmap string Z) (tos : list TokenOffer) (t : string) :
  In t (pair_tokens tos) -> api t offerDay = None ->
  exists e, price_pairs api pct offerDay (m, false) tos = inl e.
Proof.
  revert m; induction tos as [|[a b] tos IH]; intros m Ht Hn; simpl in Ht; [destruct Ht|].
  simpl. unfold price_pair. simpl.
  destruct (api a offerDay) as [pa|] eqn:Ea.
  - rewrite (price_token_some _ _ _ _ _ _ _ Ea).
    destruct (api b offerDay) as [pb|] eqn:Eb.
    + rewrite (price_token_some _ _ _ _ _ _ _ Eb). simpl.
      destruct Ht as [<-|[<-|Ht]]; [congruence|congruence|].
      apply IH; assumption.
    + unfold price_token at 1. rewrite Eb. eexists; reflexivity.
  - unfold price_token at 1. rewrite Ea. eexists; reflexivity.
Qed.

Lemma sync_offer_absent (env : Env) (o : PortfolioOffer) (t : string) (d : DB) :
  In t (pair_tokens (tokenOffers o)) -> getCoinPriceForDay env t (day o) = None ->
  sync_offer env o d = (inr tt, d).
Proof.
  intros Ht Hn. unfold sync_offer, try_catch.
  destruct (price_pairs_absent (getCoinPriceForDay env) (calculatePercentageChange env)
              (day o) ∅ (tokenOffers o) t Ht Hn) as [e ->].
  reflexivity.
Qed.

Lemma sync_offer_other (env : Env) (oid : nat) (o : PortfolioOffer) :
  offer_id o <> oid -> stable (obs_offer oid) (sync_offer env o).
Proof.
  intros Hne. unfold sync_offer.
  apply stable_try_catch; [|intros _; apply stable_ret].
  destruct (price_pairs _ _ _ _ _) as [e|[pc b]]; [apply stable_throw|].
  destruct b; [apply stable_ret|]. apply offer_update_other. exact Hne.
Qed.

Lemma for_each_skip {A} (L1 L2 : list A) (x : A) (f : A -> M unit) (d : DB) :
  (forall d', f x d' = (inr tt, d')) ->
  for_each (L1 ++ x :: L2) f d = for_each (L1 ++ L2) f d.
Proof.
  intros Hx. revert d; induction L1 as [|y L1 IH]; intros d; simpl; unfold bind.
  - rewrite Hx. reflexivity.
  - destruct (f y d) as [[e|[]] d']; [reflexivity|apply IH].
Qed.

Lemma bind_query {A B} (q : string) (f : DB -> A) (k : A -> M B) (d : DB) :
  bind (query q f) k d = k (f d) (log_query q d).
Proof. reflexivity. Qed.

(** C4.  If the CoinsApi has no pricing for some token of an offer on
    its day, the offer's step in [syncOffersPrices] ends normally without
    changing anything (the [TypeError] thrown on the absent pricing is
    caught), so the loop goes on to the other offers exactly as if this
    offer were not in the batch; and, with offer ids unique, after the run
    the offer's stored record, status WaitingForPricing and empty pricing
    changes included, and the events about it are as before. *)
Theorem syncOffersPrices_absent_token (env : Env) (d : DB) (o : PortfolioOffer) (t : string) :
  List.NoDup (offer_ids d) -> In o (db_offers d) ->
  In t (pair_tokens (tokenOffers o)) -> getCoinPriceForDay env t (day o) = None ->
  (forall d', sync_offer env o d' = (inr tt, d')) /\
  (forall L1 L2 d', for_each (L1 ++ o :: L2) (sync_offer env) d'
                    = for_each (L1 ++ L2) (sync_offer env) d') /\
  obs_offer (offer_id o) (snd (syncOffersPrices env d)) = obs_offer (offer_id o) d.
Proof.
  intros Hnd Hin Ht Hn.
  assert (Hself : forall d', sync_offer env o d' = (inr tt, d'))
    by (intros d'; apply (sync_offer_absent env o t); assumption).
  split; [exact Hself|]. split; [intros L1 L2 d'; apply for_each_skip; exact Hself|].
  unfold syncOffersPrices, offer_findByOfferStatus. rewrite bind_query.
  pose proof (offer_query (offer_id o) "offers.findByOfferStatus" (fun _ => tt) d) as Hq.
  cbn [snd query] in Hq.
  set (L := List.filter _ (db_offers d)).
  assert (HL : forall x, In x L -> stable (obs_offer (offer_id o)) (sync_offer env x)).
  { intros x Hx. apply List.filter_In in Hx as [Hx _].
    destruct (Nat.eq_dec (offer_id x) (offer_id o)) as [E|E].
    - assert (x = o) by (apply (in_key_unique offer_id (db_offers d)); assumption).
      subst x. intros d'. rewrite Hself. reflexivity.
    - apply sync_offer_other. exact E. }
  rewrite <- Hq.
  destruct L as [|x l]; [reflexivity|].
  apply stable_for_each. exact HL.
Qed.

Lemma syncOffersPrices_absent_token_witness :
  (forall d', sync_offer Fixtures.env0 Fixtures.offer_X d' = (inr tt, d')) /\
  (forall L1 L2 d', for_each (L1 ++ Fixtures.offer_X :: L2) (sync_offer Fixtures.env0) d'
                    = for_each (L1 ++ L2) (sync_offer Fixtures.env0) d') /\
  obs_offer 5 (snd (syncOffersPrices Fixtures.env0 Fixtures.db_sync))
    = obs_offer 5 Fixtures.db_sync.
Proof.
  apply (syncOffersPrices_absent_token Fixtures.env0 Fixtures.db_sync Fixtures.offer_X "X").
  - vm_compute. repeat constructor; simpl; intuition discriminate.
  - left. reflexivity.
  - right. left. reflexivity.
  - reflexivity.
Defined.

(** ** The whole of [create] *)

Lemma create_result (env : Env) (params : CreatePortfolioParams) (d : DB) :
  let d1 := log_query "offers.findById" d in
  let d2 := log_query "users.getById" d1 in
  let d3 := log_query "portfolios.exists" d2 in
  create env params d =
  match find_offer (cpp_offerId params) d with
  | None => (inl (BadRequestException "Provided offer is not found"), d1)
  | Some o =>
    match find_user (cpp_userId params) d with
    | None => (inl (BadRequestException "Provided user is not found"), d2)
    | Some _ =>
      if negb (day o =? currentDay env + 1)
      then (inl (BadRequestException "Provided offer is not available."), d2)
      else if negb (Nat.eqb (List.length (cpp_selectedTokens params)) (List.length (tokenOffers o)))
      then (inl (BadRequestException "Invalid number of selected tokens"), d2)
      else if existsb (fun p => Nat.eqb (pf_user p) (cpp_userId params) &&
                                Nat.eqb (pf_offer p) (cpp_offerId params)) (db_portfolios d)
      then (inl (BadRequestException "Portfolio for this day already submitted."), d3)
      else portfolio_create (cpp_userId params) (cpp_selectedTokens params)
             (cpp_offerId params) false d3
    end
  end.
Proof.
  intros d1 d2 d3.
  unfold create, getById, offer_findById, user_getById, validateSelectedTokens,
    portfolio_existsByUserIdAndOfferId, bind, query, throw, ret.
  cbv beta iota.
  destruct (find_offer (cpp_offerId params) d) as [o|]; [|reflexivity].
  change (find_user (cpp_userId params) (log_query "offers.findById" d))
    with (find_user (cpp_userId params) d).
  destruct (find_user (cpp_userId params) d) as [u|]; [|reflexivity].
  destruct (negb (day o =? currentDay env + 1)); [reflexivity|].
  destruct (negb (Nat.eqb _ _)); [reflexivity|].
  change (db_portfolios (log_query "users.getById" (log_query "offers.findById" d)))
    with (db_portfolios d).
  destruct (existsb _ (db_portfolios d)); reflexivity.
Qed.

Lemma log_query2 (q1 q2 : string) (d : DB) :
  log_query q2 (log_query q1 d) = set_log (db_log d ++ map EvQuery [q1; q2]) d.
Proof. destruct d. unfold log_query, set_log. simpl. rewrite <- List.app_assoc. reflexivity. Qed.

Lemma log_query3 (q1 q2 q3 : string) (d : DB) :
  log_query q3 (log_query q2 (log_query q1 d)) = set_log (db_log d ++ map EvQuery [q1; q2; q3]) d.
Proof. destruct d. unfold log_query, set_log. simpl. rewrite <- !List.app_assoc. reflexivity. Qed.

Lemma create_failure_log (env : Env) (params : CreatePortfolioParams) (d : DB) (e : Exn) :
  fst (create env params d) = inl e ->
  exists qs, snd (create env params d) = set_log (db_log d ++ map EvQuery qs) d.
Proof.
  rewrite create_result. cbv zeta.
  destruct (find_offer _ d) as [o|]; [|intros _; exists ["offers.findById"%string]; reflexivity].
  destruct (find_user _ d) as [u|]; [|intros _; eexists; apply log_query2].
  destruct (negb _); [intros _; eexists; apply log_query2|].
  destruct (negb _); [intros _; eexists; apply log_query2|].
  destruct (existsb _ _); [intros _; eexists; apply log_query3|].
  unfold portfolio_create. simpl. discriminate.
Qed.

Lemma create_ok (env : Env) (params : CreatePortfolioParams) (d : DB) (p : Portfolio) (d' : DB) :
  create env params d = (inr p, d') ->
  exists o u,
    find_offer (cpp_offerId params) d = Some o /\ find_user (cpp_userId params) d = Some u /\
    day o = currentDay env + 1 /\
    List.length (cpp_selectedTokens params) = List.length (tokenOffers o) /\
    existsb (fun q => Nat.eqb (pf_user q) (cpp_userId params) &&
                      Nat.eqb (pf_offer q) (cpp_offerId params)) (db_portfolios d) = false /\
    p = mkPortfolio (next_portfolio_id d) (cpp_userId params) (cpp_offerId params)
          (cpp_selectedTokens params) false None /\
    d' = set_portfolios (db_portfolios d ++ [p])
           (emit (WPortfolioCreate (pf_id p) (cpp_userId params) (cpp_offerId params)
                    (cpp_selectedTokens params))
                 (log_query "portfolios.exists" (log_query "users.getById"
                    (log_query "offers.findById" d)))).
Proof.
  rewrite create_result. cbv zeta.
  destruct (find_offer _ d) as [o|]; [|discriminate].
  destruct (find_user _ d) as [u|]; [|discriminate].
  destruct (negb (day o =? currentDay env + 1)) eqn:Hday; [discriminate|].
  destruct (negb (Nat.eqb _ _)) eqn:Hlen; [discriminate|].
  destruct (existsb _ _) eqn:Hex; [discriminate|].
  unfold portfolio_create. intros H. injection H as <- <-.
  exists o, u. apply negb_false_iff in Hday, Hlen.
  apply Z.eqb_eq in Hday. apply Nat.eqb_eq in Hlen.
  repeat split; assumption.
Qed.

Lemma next_portfolio_id_fresh (d : DB) : ~ In (next_portfolio_id d) (pf_ids d).
Proof.
  unfold next_portfolio_id, pf_ids. intros H.
  pose proof (proj1 (List.list_max_le (map pf_id (db_portfolios d)) _) (Nat.le_refl _)) as Hall.
  rewrite List.Forall_forall in Hall. specialize (Hall _ H). lia.
Qed.

Lemma existsb_key_false (u o : nat) (ps : list Portfolio) :
  existsb (fun q => Nat.eqb (pf_user q) u && Nat.eqb (pf_offer q) o) ps = false <->
  ~ In (u, o) (map (fun q => (pf_user q, pf_offer q)) ps).
Proof.
  induction ps as [|q ps IH]; simpl; [tauto|].
  rewrite orb_false_iff, IH, andb_false_iff, !Nat.eqb_neq.
  split.
  - intros [Hq Hn] [Heq|Hin]; [|contradiction].
    injection Heq as E1 E2. destruct Hq; contradiction.
  - intros H. split; [|tauto].
    destruct (Nat.eq_dec (pf_user q) u) as [E1|E1]; [|left; exact E1].
    right. intros E2. apply H. left. rewrite E1, E2. reflexivity.
Qed.

(** X1.  A [create] that fails changes nothing but the log, and only by
    the reads it made before failing. *)
Theorem create_failure_reads_only (env : Env) (params : CreatePortfolioParams) (d : DB) (e : Exn) :
  fst (create env params d) = inl e ->
  exists qs, snd (create env params d) = set_log (db_log d ++ map EvQuery qs) d.
Proof. apply create_failure_log. Qed.

Lemma create_failure_reads_only_witness :
  fst (create Fixtures.env0 Fixtures.cp_missing Fixtures.db_next) =
    inl (BadRequestException "Provided offer is not found") /\
  exists qs, snd (create Fixtures.env0 Fixtures.cp_missing Fixtures.db_next) =
    set_log (db_log Fixtures.db_next ++ map EvQuery qs) Fixtures.db_next.
Proof.
  split; [vm_compute; reflexivity|].
  apply (create_failure_reads_only Fixtures.env0 Fixtures.cp_missing Fixtures.db_next
           (BadRequestException "Provided offer is not found")).
  vm_compute. reflexivity.
Defined.

(** X2.  A successful [create] appends exactly one portfolio: not awarded,
    without points, with an id not used before; offers and users are
    unchanged, and outside a transaction the log gains the three reads and
    the create write. *)
Theorem create_success_appends (env : Env) (params : CreatePortfolioParams) (d : DB)
    (p : Portfolio) (d' : DB) :
  create env params d = (inr p, d') ->
  p = mkPortfolio (next_portfolio_id d) (cpp_userId params) (cpp_offerId params)
        (cpp_selectedTokens params) false None /\
  ~ In (pf_id p) (pf_ids d) /\
  db_portfolios d' = db_portfolios d ++ [p] /\
  db_offers d' = db_offers d /\ db_users d' = db_users d /\
  (db_tx d = None ->
   db_log d' = db_log d ++ [EvQuery "offers.findById"; EvQuery "users.getById";
                            EvQuery "portfolios.exists";
                            EvWrite (WPortfolioCreate (pf_id p) (cpp_userId params)
                                       (cpp_offerId params) (cpp_selectedTokens params))]).
Proof.
  intros H. destruct (create_ok env params d p d' H) as [o [u [_ [_ [_ [_ [_ [Hp Hd']]]]]]]].
  split; [exact Hp|]. split; [rewrite Hp; apply next_portfolio_id_fresh|].
  subst d'. destruct d as [os ps us l t]. unfold emit. simpl.
  destruct t as [ws|]; simpl; (split; [reflexivity|split; [reflexivity|split; [reflexivity|]]]);
    intros Ht; [discriminate|]. rewrite <- !List.app_assoc. reflexivity.
Qed.

Lemma create_success_appends_witness :
  create Fixtures.env0 Fixtures.cp7 Fixtures.db_next = (inr Fixtures.pf_new, Fixtures.db_created) /\
  db_tx Fixtures.db_next = None /\
  db_portfolios Fixtures.db_created = [Fixtures.pf_new] /\
  db_log Fixtures.db_created =
    [EvQuery "offers.findById"; EvQuery "users.getById"; EvQuery "portfolios.exists";
     EvWrite (WPortfolioCreate 1 7 4 ["A"])].
Proof.
  assert (H : create Fixtures.env0 Fixtures.cp7 Fixtures.db_next =
              (inr Fixtures.pf_new, Fixtures.db_created)) by (vm_compute; reflexivity).
  destruct (create_success_appends Fixtures.env0 Fixtures.cp7 Fixtures.db_next
              Fixtures.pf_new Fixtures.db_created H) as [_ [_ [Hps [_ [_ Hlog]]]]].
  split; [exact H|]. split; [reflexivity|]. split.
  - rewrite Hps. reflexivity.
  - rewrite (Hlog eq_refl). reflexivity.
Defined.

(** X3.  [create] succeeds exactly when the offer exists, is tomorrow's
    offer and the number of selected tokens is its number of pairs, the
    user exists, and the user has no portfolio for that offer yet; the
    positional token check plays no part. *)
Theorem create_succeeds_iff (env : Env) (params : CreatePortfolioParams) (d : DB) :
  (exists p d', create env params d = (inr p, d')) <->
  (exists o, find_offer (cpp_offerId params) d = Some o /\ day o = currentDay env + 1 /\
             List.length (cpp_selectedTokens params) = List.length (tokenOffers o)) /\
  find_user (cpp_userId params) d <> None /\
  ~ (exists q, In q (db_portfolios d) /\ pf_user q = cpp_userId params /\
               pf_offer q = cpp_offerId params).
Proof.
  split.
  - intros [p [d' H]].
    destruct (create_ok env params d p d' H) as [o [u [Ho [Hu [Hday [Hlen [Hex _]]]]]]].
    split; [exists o; auto|]. split; [congruence|].
    intros [q [Hq [E1 E2]]]. apply existsb_key_false in Hex. apply Hex.
    rewrite <- E1, <- E2. exact (List.in_map (fun q => (pf_user q, pf_offer q)) _ q Hq).
  - intros [[o [Ho [Hday Hlen]]] [Hu Hno]].
    rewrite create_result. cbv zeta. rewrite Ho.
    destruct (find_user _ d) as [u|]; [|contradiction].
    rewrite Hday, Z.eqb_refl, Hlen, Nat.eqb_refl. simpl.
    replace (existsb _ _) with false.
    + unfold portfolio_create. eexists; eexists; reflexivity.
    + symmetry. apply existsb_key_false. intros Hin.
      apply List.in_map_iff in Hin as [q [Eq Hq]]. injection Eq as E1 E2.
      apply Hno. exists q. auto.
Qed.

(** X4.  After a successful [create], a second [create] for the same user
    and offer, with a valid number of tokens, is refused with "Portfolio
    for this day already submitted.". *)
Theorem create_twice_rejected (env : Env) (params params' : CreatePortfolioParams) (d : DB)
    (p : Portfolio) (d1 : DB) :
  create env params d = (inr p, d1) ->
  cpp_userId params' = cpp_userId params -> cpp_offerId params' = cpp_offerId params ->
  List.length (cpp_selectedTokens params') = List.length (cpp_selectedTokens params) ->
  fst (create env params' d1) = inl (BadRequestException "Portfolio for this day already submitted.").
Proof.
  intros H Eu Eo Elen.
  destruct (create_ok env params d p d1 H) as [o [u [Ho [Hu [Hday [Hlen [_ [Hp Hd1]]]]]]]].
  rewrite create_result. cbv zeta.
  assert (Ho1 : find_offer (cpp_offerId params') d1 = Some o)
    by (rewrite Eo, Hd1; unfold find_offer; simpl;
        rewrite (proj1 (emit_collections _ _)); exact Ho).
  assert (Hu1 : find_user (cpp_userId params') d1 = Some u)
    by (rewrite Eu, Hd1; unfold find_user; simpl;
        rewrite (proj2 (proj2 (emit_collections _ _))); exact Hu).
  rewrite Ho1, Hu1, Hday, Z.eqb_refl, Elen, Hlen, Nat.eqb_refl. simpl.
  replace (existsb _ (db_portfolios d1)) with true; [reflexivity|].
  symmetry. apply existsb_exists. exists p. split.
  - rewrite Hd1. simpl. apply List.in_or_app. right. left. reflexivity.
  - rewrite Eu, Eo, Hp. simpl. rewrite !Nat.eqb_refl. reflexivity.
Qed.

Lemma create_twice_rejected_witness :
  create Fixtures.env0 Fixtures.cp7 Fixtures.db_next = (inr Fixtures.pf_new, Fixtures.db_created) /\
  fst (create Fixtures.env0 (mkCreatePortfolio 7 ["B"] 4) Fixtures.db_created) =
    inl (BadRequestException "Portfolio for this day already submitted.").
Proof.
  assert (H : create Fixtures.env0 Fixtures.cp7 Fixtures.db_next =
              (inr Fixtures.pf_new, Fixtures.db_created)) by (vm_compute; reflexivity).
  split; [exact H|].
  apply (create_twice_rejected Fixtures.env0 Fixtures.cp7 (mkCreatePortfolio 7 ["B"] 4)
           Fixtures.db_next Fixtures.pf_new Fixtures.db_created H); reflexivity.
Defined.

(** X5.  [create], whatever its outcome, keeps portfolio ids unique and
    keeps at most one portfolio per (user, offer). *)
Theorem create_keeps_unique (env : Env) (params : CreatePortfolioParams) (d : DB) :
  List.NoDup (pf_ids d) -> List.NoDup (pf_keys d) ->
  List.NoDup (pf_ids (snd (create env params d))) /\
  List.NoDup (pf_keys (snd (create env params d))).
Proof.
  intros Hid Hkey.
  destruct (create env params d) as [[e|p] d'] eqn:E.
  - destruct (create_failure_log env params d e) as [qs Hq]; [rewrite E; reflexivity|].
    rewrite E in Hq. simpl in Hq. subst d'. split; assumption.
  - destruct (create_ok env params d p d' E) as [o [u [_ [_ [_ [_ [Hex [Hp Hd']]]]]]]].
    simpl. subst d'. unfold pf_ids, pf_keys in *. simpl. rewrite !List.map_app. simpl.
    split; apply List.NoDup_app;
      [assumption|repeat constructor; auto| |assumption|repeat constructor; auto|];
      intros x Hx [<-|[]].
    + apply (next_portfolio_id_fresh d). rewrite Hp in Hx. exact Hx.
    + apply existsb_key_false in Hex. apply Hex. rewrite Hp in Hx. exact Hx.
Qed.

Lemma create_keeps_unique_witness :
  List.NoDup (pf_ids (snd (create Fixtures.env0 Fixtures.cp7 Fixtures.db_award_ok))) /\
  List.NoDup (pf_keys (snd (create Fixtures.env0 Fixtures.cp7 Fixtures.db_award_ok))).
Proof.
  apply create_keeps_unique; vm_compute;
    repeat constructor; simpl; intuition discriminate.
Defined.

(** ** [validateSelectedTokens] *)

Lemma every_with_index_pairs (tos : list TokenOffer) (toks : list string) (i : nat) :
  (List.length toks + i = List.length tos)%nat ->
  every_with_index (fun token index =>
      match tos !! index with
      | Some t => String.eqb (firstToken t) token || String.eqb (secondToken t) token
      | None => false
      end) toks i = true <->
  Forall2 in_pair toks (drop i tos).
Proof.
  revert i; induction toks as [|x toks IH]; intros i Hlen; simpl in *.
  - rewrite drop_ge by lia. split; [constructor|reflexivity].
  - destruct (lookup_lt_is_Some_2 tos i) as [t Ht]; [lia|].
    rewrite (drop_S tos t i Ht), Ht, andb_true_iff, orb_true_iff, !String.eqb_eq,
      (IH (S i)) by lia.
    rewrite Forall2_cons. unfold in_pair. reflexivity.
Qed.

(** X6.  [validateSelectedTokens] throws "Invalid number of selected
    tokens" when the counts differ; otherwise it returns, without touching
    the store, a boolean that is true exactly when each selected token is
    one of the two tokens of the pair at its position. *)
Theorem validateSelectedTokens_result (selectedTokens : list string) (offer : PortfolioOffer) (d : DB) :
  (List.length selectedTokens <> List.length (tokenOffers offer) ->
   validateSelectedTokens selectedTokens offer d =
     (inl (BadRequestException "Invalid number of selected tokens"), d)) /\
  (List.length selectedTokens = List.length (tokenOffers offer) ->
   exists b, validateSelectedTokens selectedTokens offer d = (inr b, d) /\
             (b = true <-> Forall2 in_pair selectedTokens (tokenOffers offer))).
Proof.
  split; intros H; unfold validateSelectedTokens.
  - apply Nat.eqb_neq in H. rewrite H. reflexivity.
  - rewrite (proj2 (Nat.eqb_eq _ _) H). simpl. eexists. split; [reflexivity|].
    rewrite every_with_index_pairs by lia. rewrite drop_0. reflexivity.
Qed.

Lemma validateSelectedTokens_result_witness :
  validateSelectedTokens ["A"; "B"] Fixtures.offer_next Fixtures.db_next =
    (inl (BadRequestException "Invalid number of selected tokens"), Fixtures.db_next) /\
  exists b, validateSelectedTokens ["B"] Fixtures.offer_next Fixtures.db_next =
              (inr b, Fixtures.db_next) /\
            (b = true <-> Forall2 in_pair ["B"] (tokenOffers Fixtures.offer_next)).
Proof.
  split.
  - apply (validateSelectedTokens_result ["A"; "B"] Fixtures.offer_next Fixtures.db_next).
    simpl. discriminate.
  - apply (validateSelectedTokens_result ["B"] Fixtures.offer_next Fixtures.db_next).
    reflexivity.
Defined.

(** ** The whole of [syncOffersPrices] *)

Lemma price_pairs_all (env : Env) (offerDay : Z) (tos : list TokenOffer) (m : gmap string Z) :
  (forall t, In t (pair_tokens tos) -> getCoinPriceForDay env t offerDay <> None) ->
  exists m',
    price_pairs (getCoinPriceForDay env) (calculatePercentageChange env) offerDay (m, false) tos
      = inr (m', false) /\
    (forall t, In t (pair_tokens tos) -> m' !! t = Some (token_change env offerDay t)) /\
    (forall t, ~ In t (pair_tokens tos) -> m' !! t = m !! t).
Proof.
  revert m; induction tos as [|[a b] tos IH]; intros m Hall; simpl in *.
  - exists m. split; [reflexivity|]. split; [intros t []|reflexivity].
  - destruct (getCoinPriceForDay env a offerDay) as [pa|] eqn:Ea;
      [|exfalso; apply (Hall a); [left; reflexivity|exact Ea]].
    destruct (getCoinPriceForDay env b offerDay) as [pb|] eqn:Eb;
      [|exfalso; apply (Hall b); [right; left; reflexivity|exact Eb]].
    unfold price_pair. simpl.
    rewrite (price_token_some _ _ _ _ _ _ _ Ea), (price_token_some _ _ _ _ _ _ _ Eb). simpl.
    set (m2 := <[b := _]> (<[a := _]> m)).
    destruct (IH m2) as [m' [Hrun [Hin Hout]]]; [intros t Ht; apply Hall; right; right; exact Ht|].
    exists m'. split; [exact Hrun|]. split.
    + intros t Ht. destruct (in_dec string_dec t (pair_tokens tos)) as [Hr|Hr]; [apply Hin; exact Hr|].
      rewrite Hout by exact Hr. unfold m2, token_change.
      destruct (decide (b = t)) as [<-|Hb]; [rewrite lookup_insert_eq, Eb; reflexivity|].
      rewrite lookup_insert_ne by exact Hb.
      destruct Ht as [<-|[<-|Ht]]; [|contradiction|contradiction].
      rewrite lookup_insert_eq, Ea. reflexivity.
    + intros t Ht. rewrite Hout by (intros H; apply Ht; right; right; exact H).
      unfold m2. rewrite !lookup_insert_ne; [reflexivity| |];
        intros E; apply Ht; subst; [left|right; left]; reflexivity.
Qed.

Lemma syncOffersPrices_unfold (env : Env) (d : DB) :
  syncOffersPrices env d =
  for_each (sync_batch env d) (sync_offer env) (log_query "offers.findByOfferStatus" d).
Proof.
  unfold syncOffersPrices, offer_findByOfferStatus. rewrite bind_query.
  unfold sync_batch. destruct (List.filter _ _); reflexivity.
Qed.

Lemma sync_offer_total (env : Env) (o : PortfolioOffer) (d : DB) :
  fst (sync_offer env o d) = inr tt.
Proof.
  unfold sync_offer, try_catch.
  destruct (match price_pairs _ _ _ _ _ with inl e => throw e | inr _ => _ end d)
    as [[e|[]] d']; reflexivity.
Qed.

Lemma find_offer_update (oid : nat) (st : OfferStatus) (pc : option (gmap string Z)) (d : DB) :
  find_offer oid (snd (offer_updateOneById oid st pc d)) =
  option_map (set_offer_status st pc) (find_offer oid d).
Proof.
  unfold offer_updateOneById, find_offer. simpl.
  apply find_map_hit.
  - intros y. destruct (offer_id y =? oid)%nat eqn:E; simpl; rewrite ?E; reflexivity.
  - intros y Hy. rewrite Hy. reflexivity.
Qed.

Lemma in_sync_batch (env : Env) (d : DB) (o : PortfolioOffer) :
  In o (sync_batch env d) <->
  In o (db_offers d) /\ offerStatus o = WaitingForPricing /\ day o <= currentDay env.
Proof.
  unfold sync_batch. rewrite List.filter_In, andb_true_iff, bool_decide_eq_true, Z.leb_le.
  tauto.
Qed.

Lemma syncOffersPrices_record (env : Env) (d : DB) (o : PortfolioOffer) :
  List.NoDup (offer_ids d) -> In o (db_offers d) ->
  offerStatus o = WaitingForPricing -> day o <= currentDay env ->
  (forall t, In t (pair_tokens (tokenOffers o)) -> getCoinPriceForDay env t (day o) <> None) ->
  exists pc,
    find_offer (offer_id o) (snd (syncOffersPrices env d))
      = Some (set_offer_status WaitingForCompletion (Some pc) o) /\
    (forall t, In t (pair_tokens (tokenOffers o)) -> pc !! t = Some (token_change env (day o) t)) /\
    (forall t, ~ In t (pair_tokens (tokenOffers o)) -> pc !! t = None).
Proof.
  intros Hnd Hin Hst Hday Hall.
  destruct (price_pairs_all env (day o) (tokenOffers o) ∅ Hall) as [pc [Hrun [Hpin Hpout]]].
  exists pc. split; [|split; [exact Hpin|intros t Ht; rewrite Hpout by exact Ht; apply lookup_empty]].
  assert (Hself : forall d', sync_offer env o d' =
                             offer_updateOneById (offer_id o) WaitingForCompletion (Some pc) d')
    by (intros d'; unfold sync_offer, try_catch; rewrite Hrun; reflexivity).
  assert (Hfind : find_offer (offer_id o) d = Some o)
    by (apply (find_key_unique offer_id); assumption).
  rewrite syncOffersPrices_unfold.
  assert (Hb : In o (sync_batch env d)) by (apply in_sync_batch; auto).
  destruct (List.in_split o _ Hb) as [L1 [L2 HL]].
  assert (HndW : List.NoDup (map offer_id (L1 ++ o :: L2)))
    by (rewrite <- HL; apply NoDup_map_filter; exact Hnd).
  pose proof (not_in_split_map offer_id L1 L2 o HndW) as Hoth.
  rewrite HL.
  destruct (for_each_total_stable (obs_offer (offer_id o)) L1 (sync_offer env)
              (log_query "offers.findByOfferStatus" d)) as [Ht1 Hs1].
  { intros x d' _. apply sync_offer_total. }
  { intros x Hx. apply sync_offer_other. apply Hoth. left; exact Hx. }
  destruct (for_each L1 (sync_offer env) (log_query "offers.findByOfferStatus" d))
    as [r1 d1] eqn:E1.
  simpl in Ht1, Hs1. subst r1.
  pose proof (sync_offer_total env o d1) as Ht2.
  pose proof (find_offer_update (offer_id o) WaitingForCompletion (Some pc) d1) as Hs2.
  rewrite <- Hself in Hs2.
  destruct (sync_offer env o d1) as [r2 d2] eqn:E2.
  simpl in Ht2, Hs2. subst r2.
  change (find_offer (offer_id o) ?x) with (fst (fst (obs_offer (offer_id o) x))).
  rewrite (obs_for_each_split (obs_offer (offer_id o)) L1 L2 o _ _ d1 d2 E1 E2).
  - unfold obs_offer at 1, obs_gen at 1. simpl. rewrite Hs2.
    pose proof (offer_query (offer_id o) "offers.findByOfferStatus" (fun _ => tt) d) as Hq.
    cbn [snd query] in Hq. rewrite Hq in Hs1.
    unfold obs_offer, obs_gen in Hs1. injection Hs1 as Hf _ _. rewrite Hf, Hfind. reflexivity.
  - intros x Hx. apply sync_offer_other. apply Hoth. right; exact Hx.
Qed.

(** X7.  [syncOffersPrices] prices a waiting offer of a past or current
    day whose tokens the CoinsApi all knows: the offer becomes
    WaitingForCompletion and its pricing changes map each token of its
    pairs to that token's percentage change, and no other token. *)
Theorem syncOffersPrices_prices_offer (env : Env) (d : DB) (o : PortfolioOffer) :
  List.NoDup (offer_ids d) -> In o (db_offers d) ->
  offerStatus o = WaitingForPricing -> day o <= currentDay env ->
  (forall t, In t (pair_tokens (tokenOffers o)) -> getCoinPriceForDay env t (day o) <> None) ->
  exists pc,
    find_offer (offer_id o) (snd (syncOffersPrices env d))
      = Some (set_offer_status WaitingForCompletion (Some pc) o) /\
    (forall t, In t (pair_tokens (tokenOffers o)) -> pc !! t = Some (token_change env (day o) t)) /\
    (forall t, ~ In t (pair_tokens (tokenOffers o)) -> pc !! t = None).
Proof. apply syncOffersPrices_record. Qed.

Lemma pair_tokens_priced_env0 (o : PortfolioOffer) :
  tokenOffers o = [mkTokenOffer "A" "B"] ->
  forall t, In t (pair_tokens (tokenOffers o)) ->
            getCoinPriceForDay Fixtures.env0 t (day o) <> None.
Proof.
  intros Ho t Ht. rewrite Ho in Ht. simpl in Ht.
  destruct Ht as [<-|[<-|[]]]; vm_compute; discriminate.
Qed.

Lemma syncOffersPrices_prices_offer_witness :
  exists pc,
    find_offer 6 (snd (syncOffersPrices Fixtures.env0 Fixtures.db_sync))
      = Some (set_offer_status WaitingForCompletion (Some pc) Fixtures.offer_ok) /\
    (forall t, In t ["A"; "B"]%string -> pc !! t = Some (token_change Fixtures.env0 100 t)) /\
    (forall t, ~ In t ["A"; "B"]%string -> pc !! t = None).
Proof.
  apply (syncOffersPrices_prices_offer Fixtures.env0 Fixtures.db_sync Fixtures.offer_ok).
  - vm_compute. repeat constructor; simpl; intuition discriminate.
  - right. left. reflexivity.
  - reflexivity.
  - vm_compute. discriminate.
  - apply pair_tokens_priced_env0. reflexivity.
Defined.

(** X8.  [syncOffersPrices] leaves an offer untouched (its record and the
    events about it) when it is not waiting for pricing or its day is
    still ahead. *)
Theorem syncOffersPrices_skips_others (env : Env) (d : DB) (o : PortfolioOffer) :
  List.NoDup (offer_ids d) -> In o (db_offers d) ->
  offerStatus o <> WaitingForPricing \/ currentDay env < day o ->
  obs_offer (offer_id o) (snd (syncOffersPrices env d)) = obs_offer (offer_id o) d.
Proof.
  intros Hnd Hin Hout. rewrite syncOffersPrices_unfold.
  rewrite stable_for_each.
  - pose proof (offer_query (offer_id o) "offers.findByOfferStatus" (fun _ => tt) d) as Hq.
    cbn [snd query] in Hq. exact Hq.
  - intros x Hx. apply sync_offer_other. intros E.
    apply in_sync_batch in Hx as [Hxin [Hxst Hxday]].
    assert (x = o) by (apply (in_key_unique offer_id (db_offers d)); assumption).
    subst x. destruct Hout; [contradiction|lia].
Qed.

Lemma syncOffersPrices_skips_others_witness :
  obs_offer 1 (snd (syncOffersPrices Fixtures.env0 Fixtures.db_ahead)) =
    obs_offer 1 Fixtures.db_ahead.
Proof.
  apply (syncOffersPrices_skips_others Fixtures.env0 Fixtures.db_ahead Fixtures.offer_ahead).
  - vm_compute. repeat constructor; simpl; intuition discriminate.
  - left. reflexivity.
  - right. vm_compute. reflexivity.
Defined.

Lemma sync_offer_portfolios (env : Env) (o : PortfolioOffer) : stable db_portfolios (sync_offer env o).
Proof.
  unfold sync_offer. apply stable_try_catch; [|intros _; apply stable_ret].
  destruct (price_pairs _ _ _ _ _) as [e|[pc b]]; [apply stable_throw|].
  destruct b; [apply stable_ret|].
  intros d. unfold offer_updateOneById. simpl. apply (proj1 (proj2 (emit_collections _ _))).
Qed.

Lemma sync_offer_offer_ids (env : Env) (o : PortfolioOffer) : stable offer_ids (sync_offer env o).
Proof.
  unfold sync_offer. apply stable_try_catch; [|intros _; apply stable_ret].
  destruct (price_pairs _ _ _ _ _) as [e|[pc b]]; [apply stable_throw|].
  destruct b; [apply stable_ret|]. apply offer_ids_offer_update.
Qed.

Lemma syncOffersPrices_portfolios (env : Env) (d : DB) :
  db_portfolios (snd (syncOffersPrices env d)) = db_portfolios d.
Proof.
  rewrite syncOffersPrices_unfold.
  rewrite (stable_for_each db_portfolios _ _ (fun x _ => sync_offer_portfolios env x)).
  reflexivity.
Qed.

Lemma syncOffersPrices_offer_ids (env : Env) (d : DB) :
  offer_ids (snd (syncOffersPrices env d)) = offer_ids d.
Proof.
  rewrite syncOffersPrices_unfold.
  rewrite (stable_for_each offer_ids _ _ (fun x _ => sync_offer_offer_ids env x)).
  reflexivity.
Qed.

Lemma Forall2_in_pair_tokens (toks : list string) (tos : list TokenOffer) :
  Forall2 in_pair toks tos -> forall t, In t toks -> In t (pair_tokens tos).
Proof.
  induction 1 as [|x y toks tos Hxy _ IH]; intros t Ht; [destruct Ht|].
  simpl. destruct Ht as [<-|Ht].
  - destruct Hxy as [<-|<-]; [left|right; left]; reflexivity.
  - right. right. apply IH. exact Ht.
Qed.

(** X9.  Pricing then awarding: when every token of a waiting offer of a
    past day is priced and every non-awarded portfolio of the offer passes
    the positional token check, the sync followed by [awardPortfolios]
    awards each of those portfolios with the sum of the percentage changes
    of its tokens and completes the offer. *)
Theorem sync_then_award (env : Env) (d : DB) (o : PortfolioOffer) (q : Portfolio) :
  List.NoDup (offer_ids d) -> List.NoDup (pf_ids d) -> In o (db_offers d) ->
  offerStatus o = WaitingForPricing -> day o <= currentDay env ->
  (forall t, In t (pair_tokens (tokenOffers o)) -> getCoinPriceForDay env t (day o) <> None) ->
  Forall (fun q' => Forall2 in_pair (selectedTokens q') (tokenOffers o))
         (award_group d (offer_id o)) ->
  In q (award_group d (offer_id o)) ->
  let d2 := snd (awardPortfolios (snd (syncOffersPrices env d))) in
  find_portfolio (pf_id q) d2 =
    Some (award true (fold_right Z.add 0 (map (token_change env (day o)) (selectedTokens q))) q) /\
  option_map offerStatus (find_offer (offer_id o) d2) = Some Completed.
Proof.
  intros Hndo Hndp Hin Hst Hday Hall Hvalid Hq d2.
  destruct (syncOffersPrices_record env d o Hndo Hin Hst Hday Hall) as [pc [Hrec [Hpin _]]].
  set (d1 := snd (syncOffersPrices env d)) in *.
  set (o1 := set_offer_status WaitingForCompletion (Some pc) o) in *.
  assert (Hin1 : In o1 (db_offers d1))
    by (pose proof Hrec as H; unfold find_offer in H; apply find_some in H; exact (proj1 H)).
  assert (Hndo1 : List.NoDup (map offer_id (db_offers d1)))
    by (change (List.NoDup (offer_ids d1)); unfold d1; rewrite syncOffersPrices_offer_ids; exact Hndo).
  assert (Hndp1 : List.NoDup (map pf_id (db_portfolios d1)))
    by (unfold d1; rewrite syncOffersPrices_portfolios; exact Hndp).
  assert (Hgrp : award_group d1 (offer_id o1) = award_group d (offer_id o))
    by (unfold award_group, d1; rewrite syncOffersPrices_portfolios; reflexivity).
  assert (Hpriced : forall q', In q' (award_group d (offer_id o)) -> priced pc q' = true).
  { intros q' Hq'. rewrite List.Forall_forall in Hvalid.
    unfold priced. apply forallb_forall. intros t Ht.
    rewrite (Hpin t) by (apply (Forall2_in_pair_tokens _ _ (Hvalid q' Hq')); exact Ht).
    reflexivity. }
  destruct (List.in_split q _ Hq) as [G1 [G2 HG]].
  pose proof (awardPortfolios_awards d1 o1 q G1 G2 Hndo1 Hndp1 Hin1 eq_refl) as Haw.
  rewrite Hgrp in Haw. specialize (Haw HG).
  assert (HG1 : Forall (fun q' => priced (pricingChanges o1) q' = true) G1).
  { apply List.Forall_forall. intros q' Hq'. apply Hpriced. rewrite HG.
    apply List.in_or_app. left. exact Hq'. }
  specialize (Haw HG1 (Hpriced q Hq)).
  unfold obs_pf, obs_gen in Haw. injection Haw as Hf _ _.
  split.
  - unfold d2. rewrite Hf. f_equal. f_equal. unfold sum_changes. simpl. f_equal.
    apply List.map_ext_in. intros t Ht.
    rewrite List.Forall_forall in Hvalid.
    rewrite (Hpin t) by (apply (Forall2_in_pair_tokens _ _ (Hvalid q Hq)); exact Ht).
    reflexivity.
  - pose proof (awardPortfolios_offer_record d1 o1 Hndo1 Hin1 eq_refl) as Hr.
    unfold d2. change (offer_id o) with (offer_id o1) at 1. rewrite Hr, Hgrp.
    change (pricingChanges o1) with pc.
    replace (forallb (priced pc) (award_group d (offer_id o))) with true; [reflexivity|].
    symmetry. apply forallb_forall. exact Hpriced.
Qed.

Lemma sync_then_award_witness :
  let d2 := snd (awardPortfolios (snd (syncOffersPrices Fixtures.env0 Fixtures.db_sync_award))) in
  find_portfolio 30 d2 =
    Some (award true (fold_right Z.add 0 (map (token_change Fixtures.env0 100) ["A"%string]))
                Fixtures.pf_30) /\
  option_map offerStatus (find_offer 6 d2) = Some Completed.
Proof.
  apply (sync_then_award Fixtures.env0 Fixtures.db_sync_award Fixtures.offer_ok Fixtures.pf_30).
  - vm_compute. repeat constructor; simpl; intuition discriminate.
  - vm_compute. repeat constructor; simpl; intuition discriminate.
  - left. reflexivity.
  - reflexivity.
  - vm_compute. discriminate.
  - apply pair_tokens_priced_env0. reflexivity.
  - vm_compute. repeat constructor.
  - vm_compute. left. reflexivity.
Defined.

(** ** Running [generateOffers] twice *)

Lemma generateOffers_cases (env : Env) (d : DB) :
  generateOffers env d =
  if MAX_DAYS_THRESHOLD <? next_offer_day env d - currentDay env
  then (inr tt, log_query "offers.findLatest" d)
  else offer_createMany (generated_params env (next_offer_day env d))
         (log_query "offers.findLatest" d).
Proof.
  unfold generateOffers, bind, offer_findLatest, query, next_offer_day, generated_params.
  destruct (MAX_DAYS_THRESHOLD <? _); reflexivity.
Qed.

Lemma latest_upper (os : list PortfolioOffer) (o : PortfolioOffer) :
  In o os -> exists a, latest os = Some a /\ day o <= day a.
Proof.
  intros Hin. unfold latest. pose proof (latest_spec os None) as H.
  destruct (fold_left latest_step os None) as [a|].
  - destruct H as [_ [Hall _]]. exists a. split; [reflexivity|].
    rewrite List.Forall_forall in Hall. apply Hall. exact Hin.
  - destruct H as [_ ->]. destruct Hin.
Qed.

(** X10.  Unless the store is more than four days behind, a second
    [generateOffers] right after a first one only reads the latest offer:
    the first run either stopped at the threshold or generated a week
    ahead. *)
Theorem generateOffers_second_run_noop (env : Env) (d : DB) :
  currentDay env - 4 <= next_offer_day env d ->
  let d1 := snd (generateOffers env d) in
  generateOffers env d1 = (inr tt, log_query "offers.findLatest" d1).
Proof.
  intros Hnext d1. rewrite generateOffers_cases.
  replace (MAX_DAYS_THRESHOLD <? next_offer_day env d1 - currentDay env) with true; [reflexivity|].
  symmetry. apply Z.ltb_lt. unfold MAX_DAYS_THRESHOLD.
  unfold d1. rewrite generateOffers_cases.
  destruct (MAX_DAYS_THRESHOLD <? next_offer_day env d - currentDay env) eqn:Hg.
  - apply Z.ltb_lt in Hg. unfold MAX_DAYS_THRESHOLD in Hg. exact Hg.
  - set (nd := next_offer_day env d) in *.
    assert (Hlast : exists o, In o (new_offers (next_offer_id (log_query "offers.findLatest" d))
                                    (generated_params env nd)) /\ day o = nd + 7).
    { set (l := new_offers _ _).
      assert (Hd : In (nd + 7) (map day l)).
      { unfold l. rewrite new_offers_day. unfold generated_params.
        rewrite List.map_map. simpl. rewrite List.map_id. unfold days_incl.
        apply List.in_map_iff. exists 7%nat. split; [unfold OFFERS_TO_GENERATE; lia|].
        apply List.in_seq. unfold OFFERS_TO_GENERATE.
        replace (Z.to_nat (nd + 7 - nd + 1)) with 8%nat by lia. lia. }
      apply List.in_map_iff in Hd as [o [Ho Hin]]. exists o. auto. }
    destruct Hlast as [o [Hin Ho]].
    unfold next_offer_day at 1, offer_createMany. simpl.
    destruct (latest_upper (db_offers d ++ new_offers (next_offer_id (log_query "offers.findLatest" d))
                              (generated_params env nd)) o) as [a [Ha Hle]];
      [apply List.in_or_app; right; exact Hin|].
    rewrite Ha. lia.
Qed.

Lemma generateOffers_second_run_noop_witness :
  currentDay Fixtures.env0 - 4 <= next_offer_day Fixtures.env0 Fixtures.db_empty /\
  let d1 := snd (generateOffers Fixtures.env0 Fixtures.db_empty) in
  generateOffers Fixtures.env0 d1 = (inr tt, log_query "offers.findLatest" d1).
Proof.
  assert (H : currentDay Fixtures.env0 - 4 <= next_offer_day Fixtures.env0 Fixtures.db_empty)
    by (vm_compute; discriminate).
  split; [exact H|]. exact (generateOffers_second_run_noop Fixtures.env0 Fixtures.db_empty H).
Defined.

(** ** What [awardPortfolios] changes *)

Lemma award_step_trans (q1 q2 q3 : Portfolio) :
  award_step q1 q2 -> award_step q2 q3 -> award_step q1 q3.
Proof.
  unfold award_step. intros [->|[s ->]] [->|[s' ->]].
  - left; reflexivity.
  - right; exists s'; reflexivity.
  - right; exists s; reflexivity.
  - right; exists s'; reflexivity.
Qed.

Lemma Forall2_award_step_refl (l : list Portfolio) : Forall2 award_step l l.
Proof. induction l; constructor; [left; reflexivity|assumption]. Qed.

Lemma Forall2_award_step_trans (l1 l2 l3 : list Portfolio) :
  Forall2 award_step l1 l2 -> Forall2 award_step l2 l3 -> Forall2 award_step l1 l3.
Proof.
  intros H12. revert l3. induction H12 as [|x y l1 l2 Hxy _ IH]; intros l3 H23;
    inversion H23; subst; constructor; [eapply award_step_trans; eassumption|apply IH; assumption].
Qed.

Lemma only_awards_same {A} (m : M A) :
  (forall d, db_portfolios (snd (m d)) = db_portfolios d) -> only_awards m.
Proof. intros H d. rewrite H. apply Forall2_award_step_refl. Qed.

Lemma only_awards_ret {A} (a : A) : only_awards (ret a).
Proof. apply only_awards_same. reflexivity. Qed.

Lemma only_awards_throw {A} (e : Exn) : only_awards (A:=A) (throw e).
Proof. apply only_awards_same. reflexivity. Qed.

Lemma only_awards_bind {A B} (m : M A) (k : A -> M B) :
  only_awards m -> (forall a, only_awards (k a)) -> only_awards (bind m k).
Proof.
  intros Hm Hk d. unfold bind. specialize (Hm d).
  destruct (m d) as [[e|a] d']; simpl in *; [exact Hm|].
  eapply Forall2_award_step_trans; [exact Hm|apply Hk].
Qed.

Lemma only_awards_try_catch {A} (m : M A) (h : Exn -> M A) :
  only_awards m -> (forall e, only_awards (h e)) -> only_awards (try_catch m h).
Proof.
  intros Hm Hh d. unfold try_catch. specialize (Hm d).
  destruct (m d) as [[e|a] d']; simpl in *; [|exact Hm].
  eapply Forall2_award_step_trans; [exact Hm|apply Hh].
Qed.

Lemma only_awards_for_each {A} (xs : list A) (f : A -> M unit) :
  (forall x, only_awards (f x)) -> only_awards (for_each xs f).
Proof.
  intros Hf. induction xs as [|x xs IH]; simpl; [apply only_awards_ret|].
  apply only_awards_bind; [apply Hf|intros _; exact IH].
Qed.

Lemma only_awards_useTransaction {A} (f : M A) : only_awards f -> only_awards (useTransaction f).
Proof.
  intros Hf d. unfold useTransaction. specialize (Hf (set_tx (Some []) d)).
  destruct (f (set_tx (Some []) d)) as [[e|a] d']; simpl in *;
    [apply Forall2_award_step_refl|exact Hf].
Qed.

Lemma only_awards_award_portfolio (pc : gmap string Z) (q : Portfolio) :
  only_awards (award_portfolio pc q).
Proof.
  unfold award_portfolio.
  destruct (reduce_points pc (selectedTokens q) 0) as [e|x]; [apply only_awards_throw|].
  apply only_awards_useTransaction. apply only_awards_bind.
  - intros d. unfold portfolio_updateOneById. simpl.
    induction (db_portfolios d) as [|y l IH]; simpl; constructor; [|exact IH].
    destruct (pf_id y =? pf_id q)%nat; [right; exists x; reflexivity|left; reflexivity].
  - intros _. apply only_awards_same. intros d. unfold user_update. simpl.
    apply (proj1 (proj2 (emit_collections _ _))).
Qed.

Lemma only_awards_awardPortfolios : only_awards awardPortfolios.
Proof.
  intros d. rewrite awardPortfolios_unfold.
  eapply Forall2_award_step_trans; [|apply only_awards_for_each].
  - apply Forall2_award_step_refl.
  - intros x. unfold award_offer. apply only_awards_try_catch; [|intros _; apply only_awards_ret].
    apply only_awards_bind.
    + apply only_awards_for_each. intros q. apply only_awards_award_portfolio.
    + intros _ d'. unfold markOfferCompleted, offer_updateOneById. simpl.
      rewrite (proj1 (proj2 (emit_collections _ _))). apply Forall2_award_step_refl.
Qed.

Lemma find_award_step (pid : nat) (l l' : list Portfolio) :
  Forall2 award_step l l' ->
  match find (fun p => Nat.eqb (pf_id p) pid) l, find (fun p => Nat.eqb (pf_id p) pid) l' with
  | Some q, Some q' => award_step q q'
  | None, None => True
  | _, _ => False
  end.
Proof.
  induction 1 as [|x y l l' Hxy _ IH]; simpl; [exact I|].
  assert (Hid : pf_id y = pf_id x) by (destruct Hxy as [->|[s ->]]; reflexivity).
  rewrite Hid. destruct (pf_id x =? pid)%nat; [exact Hxy|exact IH].
Qed.

(** X11.  [awardPortfolios] never creates or deletes a portfolio and never
    changes its user, offer or selected tokens: each portfolio is either
    left as it is or marked awarded with some points. *)
Theorem awardPortfolios_only_awards (d : DB) (pid : nat) :
  match find_portfolio pid d, find_portfolio pid (snd (awardPortfolios d)) with
  | Some q, Some q' => q' = q \/ exists s, q' = award true s q
  | None, None => True
  | _, _ => False
  end.
Proof. apply find_award_step. apply only_awards_awardPortfolios. Qed.

(** X12.  [awardPortfolios] leaves an offer that is not
    WaitingForCompletion untouched: its record and the events about it. *)
Theorem awardPortfolios_skips_non_waiting_offer (d : DB) (o : PortfolioOffer) :
  List.NoDup (offer_ids d) -> In o (db_offers d) -> offerStatus o <> WaitingForCompletion ->
  obs_offer (offer_id o) (snd (awardPortfolios d)) = obs_offer (offer_id o) d.
Proof.
  intros Hnd Hin Hst. rewrite awardPortfolios_unfold.
  rewrite (stable_for_each (obs_offer (offer_id o))); [apply obs_offer_after_award_queries|].
  intros x Hx. apply award_offer_offer_other. intros E.
  apply waiting_offers_mem in Hx as [Hxin Hxst].
  assert (x = o) by (apply (in_key_unique offer_id (db_offers d)); assumption).
  subst x. contradiction.
Qed.

Lemma awardPortfolios_skips_non_waiting_offer_witness :
  obs_offer 6 (snd (awardPortfolios Fixtures.db_sync_award)) = obs_offer 6 Fixtures.db_sync_award.
Proof.
  apply (awardPortfolios_skips_non_waiting_offer Fixtures.db_sync_award Fixtures.offer_ok).
  - vm_compute. repeat constructor; simpl; intuition discriminate.
  - left. reflexivity.
  - discriminate.
Defined.

(** X13.  [awardPortfolios] leaves untouched a portfolio whose offer is
    not WaitingForCompletion: its record and the events about it. *)
Theorem awardPortfolios_skips_unready_portfolio (d : DB) (q : Portfolio) :
  List.NoDup (pf_ids d) -> In q (db_portfolios d) ->
  (forall o, In o (db_offers d) -> offerStatus o = WaitingForCompletion -> offer_id o <> pf_offer q) ->
  obs_pf (pf_id q) (snd (awardPortfolios d)) = obs_pf (pf_id q) d.
Proof.
  intros Hnd Hin Hno. rewrite awardPortfolios_unfold.
  rewrite (stable_for_each (obs_pf (pf_id q))); [apply obs_pf_after_award_queries|].
  intros x Hx. apply award_offer_pf_other. intros q' Hq' E.
  destruct (awarding_group_mem d (offer_id x) q' Hq') as [Hq'in [Hq'off _]].
  assert (q' = q) by (apply (in_key_unique pf_id (db_portfolios d)); assumption).
  subst q'. apply waiting_offers_mem in Hx as [Hxin Hxst].
  apply (Hno x Hxin Hxst). symmetry. exact Hq'off.
Qed.

Lemma awardPortfolios_skips_unready_portfolio_witness :
  obs_pf 30 (snd (awardPortfolios Fixtures.db_sync_award)) = obs_pf 30 Fixtures.db_sync_award.
Proof.
  apply (awardPortfolios_skips_unready_portfolio Fixtures.db_sync_award Fixtures.pf_30).
  - vm_compute. repeat constructor; simpl; intuition discriminate.
  - left. reflexivity.
  - intros o [<-|[]] Hst. discriminate.
Defined.

(** ** Repository and listing edges *)

(** X14.  [updateOneById(id, ...)] awards the portfolio with that id, if
    any, and leaves the portfolio of every other id as it was. *)
Theorem portfolio_updateOneById_lookup (id : nat) (b : bool) (s : Z) (d : DB) :
  find_portfolio id (snd (portfolio_updateOneById id b s d)) =
    option_map (award b s) (find_portfolio id d) /\
  (forall k, k <> id ->
     find_portfolio k (snd (portfolio_updateOneById id b s d)) = find_portfolio k d).
Proof.
  unfold portfolio_updateOneById, find_portfolio. simpl. split.
  - apply find_map_hit.
    + intros y. destruct (pf_id y =? id)%nat eqn:E; simpl; rewrite ?E; reflexivity.
    + intros y Hy. rewrite Hy. reflexivity.
  - intros k Hk. apply find_map_same.
    + intros y. destruct (pf_id y =? id)%nat eqn:E; simpl; rewrite ?E; reflexivity.
    + intros y Hy. apply Nat.eqb_eq in Hy. destruct (pf_id y =? id)%nat eqn:E; [|reflexivity].
      apply Nat.eqb_eq in E. congruence.
Qed.

Lemma portfolio_updateOneById_lookup_witness :
  find_portfolio 20 (snd (portfolio_updateOneById 20 true 5 Fixtures.db_award_ok)) =
    Some (award true 5 Fixtures.pf_20) /\
  find_portfolio 21 (snd (portfolio_updateOneById 20 true 5 Fixtures.db_award_ok)) =
    Some Fixtures.pf_21.
Proof.
  destruct (portfolio_updateOneById_lookup 20 true 5 Fixtures.db_award_ok) as [H1 H2].
  split; [rewrite H1; reflexivity|].
  rewrite (H2 21%nat ltac:(discriminate)). reflexivity.
Defined.

(** X15.  [listOffersForDays] with a negative number of days returns no
    offer. *)
Theorem listOffersForDays_negative (env : Env) (days : Z) (d : DB) :
  days < 0 -> fst (listOffersForDays env days d) = inr [].
Proof.
  intros Hd. unfold listOffersForDays, offer_find, query. simpl. f_equal.
  induction (db_offers d) as [|o l IH]; simpl; [reflexivity|].
  destruct (currentDay env - days <=? day o) eqn:E1; [|exact IH].
  destruct (day o <? currentDay env + 1) eqn:E2; [|exact IH].
  apply Z.leb_le in E1. apply Z.ltb_lt in E2. lia.
Qed.

Lemma listOffersForDays_negative_witness :
  fst (listOffersForDays Fixtures.env0 (-1) Fixtures.db_next) = inr [].
Proof. apply listOffersForDays_negative. lia. Defined.

(** X16.  [list] with an empty [offerIds] array returns no portfolio (it
    does not throw, unlike [listForUserAndOffers]); with neither a user
    nor offer ids it returns every portfolio; [isAwarded] never filters. *)
Theorem list_portfolios_edges (u : option nat) (a : option bool) (d : DB) :
  fst (list_portfolios (mkFind u (Some []) a) d) = inr [] /\
  fst (list_portfolios (mkFind None None a) d) = inr (db_portfolios d).
Proof.
  unfold list_portfolios, portfolio_find, query, portfolio_matches. simpl. split.
  - f_equal. induction (db_portfolios d) as [|q l IH]; simpl; [reflexivity|].
    rewrite andb_false_r. simpl. exact IH.
  - f_equal. induction (db_portfolios d) as [|q l IH]; simpl; [reflexivity|].
    rewrite IH. reflexivity.
Qed.

(** ** Balances and offer completion *)

(** X17.  Every change [awardPortfolios] makes to a user's balance is
    matched by the points credited to that user in the writes it logs: a
    user exists after the run exactly when before, and the balance grows by
    the credits the run added to the log. *)
Theorem awardPortfolios_balance_logged (u : nat) (d : DB) :
  match find_user u d, find_user u (snd (awardPortfolios d)) with
  | Some x, Some x' =>
      balance x' - balance x = credit_total u (snd (awardPortfolios d)) - credit_total u d
  | None, None => True
  | _, _ => False
  end.
Proof.
  pose proof (awardPortfolios_ledger u d) as H. unfold ledger in H.
  destruct (find_user u d) as [x|], (find_user u (snd (awardPortfolios d))) as [x'|];
    simpl in H; try discriminate; [|exact I].
  injection H as H. lia.
Qed.

(** X18.  [markOfferCompleted(id)] sets the status of the offer with that
    id to Completed and keeps its day, pairs and pricing changes; every
    other offer is left as it was. *)
Theorem markOfferCompleted_lookup (oid : nat) (d : DB) :
  find_offer oid (snd (markOfferCompleted oid d)) =
    option_map (fun o => mkOffer (offer_id o) (day o) (tokenOffers o) Completed (pricingChanges o))
               (find_offer oid d) /\
  (forall k, k <> oid -> find_offer k (snd (markOfferCompleted oid d)) = find_offer k d).
Proof.
  split.
  - rewrite find_offer_markOfferCompleted. reflexivity.
  - intros k Hk. pose proof (offer_update_other k oid Completed None (not_eq_sym Hk) d) as H.
    unfold markOfferCompleted. unfold obs_offer, obs_gen in H. injection H as H _ _. exact H.
Qed.

Lemma markOfferCompleted_lookup_witness :
  find_offer 2 (snd (markOfferCompleted 2 Fixtures.db_award_ok)) =
    Some (mkOffer 2 99 [mkTokenOffer "A" "B"] Completed Fixtures.pc_AB) /\
  find_offer 1 (snd (markOfferCompleted 2 Fixtures.db_award_ok)) = None.
Proof.
  destruct (markOfferCompleted_lookup 2 Fixtures.db_award_ok) as [H1 H2].
  split; [rewrite H1; reflexivity|].
  rewrite (H2 1%nat ltac:(discriminate)). reflexivity.
Defined.
